(** * vol_watcher_backend: the alert evaluation engine of [main.py]

    A shallow embedding of [src/main.py] (ingestion loop, mail helper and
    edge-triggered alert evaluation) together with the properties of the
    specification that concern it.

    Conventions of the embedding:
    - Python floats are IEEE-754 binary64 values, modelled by [spec_float]
      of the standard library with its comparison [SFcompare] (NaN, signed
      zeros and infinities included).
    - A row of a Supabase table is a Python [dict] from column names to JSON
      values: [gmap string value].
    - Exceptions are explicit: every function that can raise returns a
      [result]; stateful functions run in the monad [M] over [world].
    - Everything the program cannot decide itself (the environment
      variables, whether an SMTP session, a store call or a price fetch
      succeeds, the wall clock) is read from a [oracle] record, so that the
      embedding stays executable.
    - Every observable action ([print], SMTP session, store call) is appended
      to the [trace] of the world, newest first.
    - A [string] holds the UTF-8 encoding of a Python [str]; the texts that
      come from the store are well-formed Unicode, and standard output
      accepts every line printed. *)

From Stdlib Require Import ZArith Ascii String Floats.SpecFloat.
From stdpp Require Import base option list gmap strings.

Local Open Scope string_scope.
Local Open Scope Z_scope.
Local Open Scope list_scope.

(** ** Values *)

Abbreviation float := spec_float.

(** JSON values as [supabase-py] decodes them; the columns of both tables
    hold scalars. *)
Inductive value :=
  | VNone
  | VBool (b : bool)
  | VInt (z : Z)
  | VFloat (f : float)
  | VStr (s : string).

#[global] Instance float_eq_dec : EqDecision float.
Proof. solve_decision. Defined.

#[global] Instance value_eq_dec : EqDecision value.
Proof. solve_decision. Defined.

(** A table row / a rule [dict]. *)
Abbreviation row := (gmap string value).

(** Python exceptions that the modelled code can raise. *)
Inductive exn :=
  | KeyError (k : string)
  | TypeError
  | ValueError
  | OverflowError
  | AttributeError
  | UnicodeEncodeError
  | StoreError.

#[global] Instance exn_eq_dec : EqDecision exn.
Proof. solve_decision. Defined.

Inductive result (A : Type) :=
  | Ok (a : A)
  | Raise (e : exn).
Arguments Ok {A} a.
Arguments Raise {A} e.

(** ** Float comparison and conversion *)

(** [x >= y] on floats. *)
Definition float_ge (x y : float) : bool :=
  match SFcompare x y with
  | Some (Gt | Eq) => true
  | _ => false
  end.


(** [float(n)] for a Python [int]: round to nearest even, [OverflowError]
    when the integer is too large for binary64. *)
Definition float_of_int (z : Z) : result float :=
  match binary_normalize 53 1024 z 0 false with
  | S754_infinity _ => Raise OverflowError
  | f => Ok f
  end.

(** ** Text *)

Definition byte (c : ascii) : Z := Z.of_nat (nat_of_ascii c).

(** [s.encode('ascii')] succeeds: every character of [s] is below 128. *)
Fixpoint is_ascii (s : string) : bool :=
  match s with
  | EmptyString => true
  | String c s' => (byte c <? 128) && is_ascii s'
  end.

Definition continuation (b : Z) : bool := (128 <=? b) && (b <=? 191).

(** The code points of a text, [None] when the bytes are not the UTF-8
    encoding of a sequence of Unicode scalar values. *)
Fixpoint code_points (s : string) : option (list Z) :=
  match s with
  | EmptyString => Some []
  | String c1 s1 =>
      let b1 := byte c1 in
      if b1 <? 128 then option_map (cons b1) (code_points s1)
      else
        match s1 with
        | EmptyString => None
        | String c2 s2 =>
            let b2 := byte c2 in
            if (194 <=? b1) && (b1 <=? 223) then
              if continuation b2
              then option_map (cons ((b1 - 192) * 64 + (b2 - 128)))
                              (code_points s2)
              else None
            else
              match s2 with
              | EmptyString => None
              | String c3 s3 =>
                  let b3 := byte c3 in
                  if (224 <=? b1) && (b1 <=? 239) then
                    let cp := (b1 - 224) * 4096 + (b2 - 128) * 64 + (b3 - 128) in
                    if continuation b2 && continuation b3 && (2048 <=? cp)
                       && negb ((55296 <=? cp) && (cp <=? 57343))
                    then option_map (cons cp) (code_points s3)
                    else None
                  else
                    match s3 with
                    | EmptyString => None
                    | String c4 s4 =>
                        let b4 := byte c4 in
                        let cp := (b1 - 240) * 262144 + (b2 - 128) * 4096
                                  + (b3 - 128) * 64 + (b4 - 128) in
                        if (240 <=? b1) && (b1 <=? 244) && continuation b2
                           && continuation b3 && continuation b4
                           && (65536 <=? cp) && (cp <=? 1114111)
                        then option_map (cons cp) (code_points s4)
                        else None
                    end
              end
        end
  end.

(** ** [int(str)] *)

(** [Py_ISSPACE]: the whitespace that [PyLong_FromString] skips. *)
Definition is_space (c : ascii) : bool :=
  let n := nat_of_ascii c in
  ((9 <=? n) && (n <=? 13) || (n =? 32))%nat.

Definition digit_of (c : ascii) : option Z :=
  let n := byte c in
  if (48 <=? n) && (n <=? 57) then Some (n - 48) else None.

Fixpoint lstrip (s : string) : string :=
  match s with
  | String c s' => if is_space c then lstrip s' else s
  | EmptyString => EmptyString
  end.

Fixpoint rstrip (s : string) : string :=
  match s with
  | String c s' =>
      match rstrip s' with
      | EmptyString => if is_space c then EmptyString else String c EmptyString
      | t => String c t
      end
  | EmptyString => EmptyString
  end.

(** Decimal digits, single underscores allowed between two digits. *)
Fixpoint int_digits (s : string) (acc : Z) (after_digit : bool) : option Z :=
  match s with
  | EmptyString => if after_digit then Some acc else None
  | String c s' =>
      match digit_of c with
      | Some d => int_digits s' (10 * acc + d) true
      | None =>
          if Ascii.eqb c "_"%char && after_digit
          then int_digits s' acc false
          else None
      end
  end.

(** The number of digit characters of a literal. *)
Fixpoint digit_count (s : string) : Z :=
  match s with
  | EmptyString => 0
  | String c s' => match digit_of c with Some _ => 1 | None => 0 end + digit_count s'
  end.

(** [sys.get_int_max_str_digits()], at its default. *)
Definition max_str_digits : Z := 4300.

(** [PyLong_FromString(s, base=10)] on ASCII text: surrounding whitespace,
    an optional sign, digits; a literal of more than [max_str_digits] digits
    is refused. *)
Definition long_from_string (s : string) : result Z :=
  let t := rstrip (lstrip s) in
  let body :=
    match t with
    | String "-"%char u =>
        if max_str_digits <? digit_count u then None
        else option_map Z.opp (int_digits u 0 false)
    | String "+"%char u =>
        if max_str_digits <? digit_count u then None
        else int_digits u 0 false
    | u =>
        if max_str_digits <? digit_count u then None
        else int_digits u 0 false
    end in
  match body with Some z => Ok z | None => Raise ValueError end.

(** [Py_UNICODE_ISSPACE] above ASCII. *)
Definition unicode_space (cp : Z) : bool :=
  bool_decide (cp ∈ [133; 160; 5760; 8232; 8233; 8239; 8287; 12288])
  || (8192 <=? cp) && (cp <=? 8202).

(** The digit zero of every run of decimal digits of the Unicode database
    (version 14.0, that of CPython 3.11) above ASCII. *)
Definition decimal_zeros : list Z :=
  [1632; 1776; 1984; 2406; 2534; 2662; 2790; 2918; 3046; 3174; 3302; 3430;
   3558; 3664; 3792; 3872; 4160; 4240; 6112; 6160; 6470; 6608; 6784; 6800;
   6992; 7088; 7232; 7248; 42528; 43216; 43264; 43472; 43504; 43600; 44016;
   65296; 66720; 68912; 69734; 69872; 69942; 70096; 70384; 70736; 70864;
   71248; 71360; 71472; 71904; 72016; 72784; 73040; 73120; 92768; 92864;
   93008; 120782; 120792; 120802; 120812; 120822; 123200; 123632; 125264;
   130032].

(** [Py_UNICODE_TODECIMAL] above ASCII. *)
Definition unicode_decimal (cp : Z) : option Z :=
  match List.find (fun z => (z <=? cp) && (cp <=? z + 9)) decimal_zeros with
  | Some z => Some (cp - z)
  | None => None
  end.

(** [_PyUnicode_TransformDecimalAndSpaceToASCII] on a text that is not
    ASCII: whitespace becomes a space and a decimal digit its ASCII digit;
    [None] stands for the [?] that makes the literal invalid. *)
Fixpoint transform_decimal_and_space (cps : list Z) : option string :=
  match cps with
  | [] => Some EmptyString
  | cp :: rest =>
      let c :=
        if cp <? 127 then Some (ascii_of_nat (Z.to_nat cp))
        else if unicode_space cp then Some " "%char
        else option_map (fun d => ascii_of_nat (Z.to_nat (48 + d)))
                        (unicode_decimal cp) in
      match c, transform_decimal_and_space rest with
      | Some c, Some t => Some (String c t)
      | _, _ => None
      end
  end.

(** [int(s)] for a [str], base 10. *)
Definition py_int (s : string) : result Z :=
  if is_ascii s then long_from_string s
  else
    match code_points s with
    | Some cps =>
        match transform_decimal_and_space cps with
        | Some t => long_from_string t
        | None => Raise ValueError
        end
    | None => Raise ValueError
    end.

(** Truth value of [v] (as in [v or d] and [bool(v)]). *)
Definition truthy (v : value) : bool :=
  match v with
  | VNone => false
  | VBool b => b
  | VInt z => negb (z =? 0)
  | VFloat (S754_zero _) => false
  | VFloat _ => true
  | VStr s => negb (String.eqb s "")
  end.

(** [a or b] *)
Definition py_or (a b : value) : value := if truthy a then a else b.

(** [not s] for the result of [os.getenv]: unset or empty. *)
Definition env_falsy (s : option string) : bool :=
  match s with
  | None => true
  | Some t => String.eqb t ""
  end.

(** ** The clock *)

(** A reading of [datetime.now(timezone.utc)], its fields within the ranges
    of [datetime]. *)
Record datetime := {
  dt_year : Z;
  dt_month : Z;
  dt_day : Z;
  dt_hour : Z;
  dt_minute : Z;
  dt_second : Z;
  dt_microsecond : Z
}.

(** ["%0<w>d" % n] for [0 <= n < 10 ^ w] *)
Fixpoint zero_padded (w : nat) (n : Z) : string :=
  match w with
  | O => EmptyString
  | S w' =>
      zero_padded w' (n / 10)
      +:+ String (ascii_of_nat (Z.to_nat (48 + n mod 10))) EmptyString
  end.

(** [t.isoformat()] for an aware reading in UTC. *)
Definition isoformat (t : datetime) : string :=
  zero_padded 4 (dt_year t) +:+ "-" +:+ zero_padded 2 (dt_month t) +:+ "-"
  +:+ zero_padded 2 (dt_day t) +:+ "T" +:+ zero_padded 2 (dt_hour t) +:+ ":"
  +:+ zero_padded 2 (dt_minute t) +:+ ":" +:+ zero_padded 2 (dt_second t)
  +:+ (if dt_microsecond t =? 0 then ""
      else "." +:+ zero_padded 6 (dt_microsecond t))
  +:+ "+00:00".

(** ** Texts, mails, log lines and events *)

(** An f-string, kept symbolic: literal text and formatted holes. *)
Inductive piece :=
  | Lit (s : string)
  | Fmt (v : value)          (* {v} *)
  | FmtFloat (f : float)     (* {f} for a float *)
  | Fix2 (f : float)         (* {f:.2f} *)
  | Upper (s : string)       (* {s.upper()} *)
  | Stamp (t : datetime).    (* t.strftime('%Y-%m-%d %H:%M:%S') *)

Abbreviation text := (list piece).

(** The message handed to the SMTP session of [send_alert_email];
    [mail_from] is the address of its [From] header. *)
Record mail := {
  mail_host : string;
  mail_port : Z;
  mail_user : string;
  mail_password : string;
  mail_from : string;
  mail_to : value;
  mail_subject : text;
  mail_body : list text
}.

(** The latest bar of [Ticker.history], and the row built from it. *)
Record bar := {
  bar_date : string;
  bar_open : float;
  bar_high : float;
  bar_low : float;
  bar_close : float
}.

Record ohlc := {
  ohlc_symbol : string;
  ohlc_date : string;
  ohlc_open : float;
  ohlc_high : float;
  ohlc_low : float;
  ohlc_close : float
}.

(** The local variables bound at the top of the loop body of
    [evaluate_alerts] (lines 181-187). *)
Record rule_vars := {
  rule_id : value;
  symbol : value;
  direction : value;
  threshold : float;
  severity : value;
  email : value;
  last_result : value
}.

(** One constructor per [print] of [main.py]. *)
Inductive log_line :=
  | LogLoaded (n : nat)
  | LogNoRules
  | LogNoPrice (rule_id symbol : value)
  | LogUnsupported (rule_id direction : value)
  | LogEval (rule_id symbol direction : value) (threshold price : float)
            (prev now : bool)
  | LogSmtpWarn
  | LogMailSent (to : value)
  | LogMailError
  | LogUpdateError (rule_id : value)
  | LogBanner
  | LogFetching (name yf_symbol : string)
  | LogFetchError (name : string)
  | LogLatest (o : ohlc)
  | LogUpserting
  | LogUpsertResult (o : ohlc)
  | LogDone
  | LogChecking
  | LogAllDone.

(** Observable actions. [Send] marks the call of [send_alert_email] made
    while rule [rule_id] is evaluated; [Smtp], [Update] and [Upsert] are the
    network calls with their outcome ([false]: the call raised). *)
Inductive event :=
  | Log (l : log_line)
  | Send (rule_id to : value) (subject : text) (body : list text)
  | Smtp (m : mail) (ok : bool)
  | Update (rule_id : value) (fields : row) (ok : bool)
  | Upsert (o : ohlc) (ok : bool).

(** ** The world *)

Record world := {
  alert_rules : list row;          (* table alert_rules *)
  volatility_prices : list ohlc;   (* table volatility_prices *)
  trace : list event;              (* newest first *)
  clock : nat                      (* number of clock readings so far *)
}.

(** What the outside decides during one run. *)
Record oracle := {
  environ : gmap string string;        (* os.environ after load_dotenv *)
  smtp_ok : mail -> bool;              (* the SMTP session completes *)
  select_ok : bool;                    (* the select on alert_rules completes *)
  update_ok : value -> row -> bool;    (* the update of a rule completes *)
  upsert_ok : ohlc -> bool;            (* the upsert of a price row completes *)
  history : string -> option bar;      (* last bar of the ticker, if any *)
  utcnow : nat -> datetime             (* the n-th reading of the clock *)
}.

(** State and exception monad. The world reached when an exception is raised
    is kept: what was done before stays done. *)
Definition M (A : Type) : Type := world -> result A * world.

Definition ret {A} (a : A) : M A := fun w => (Ok a, w).

Definition raise {A} (e : exn) : M A := fun w => (Raise e, w).

Definition bind {A B} (c : M A) (k : A -> M B) : M B :=
  fun w =>
    match c w with
    | (Ok a, w') => k a w'
    | (Raise e, w') => (Raise e, w')
    end.

Definition lift {A} (r : result A) : M A := fun w => (r, w).

Declare Scope M_scope.
Delimit Scope M_scope with M.
Notation "'let*' x := c 'in' k" := (bind c (fun x => k))
  (at level 10, x name, c at level 100, k at level 200) : M_scope.
Notation "c >> k" := (bind c (fun _ => k))
  (at level 100, k at level 200, right associativity) : M_scope.
Local Open Scope M_scope.

Definition emit (e : event) : M unit :=
  fun w => (Ok tt, {| alert_rules := alert_rules w;
                      volatility_prices := volatility_prices w;
                      trace := e :: trace w;
                      clock := clock w |}).

Definition print (l : log_line) : M unit := emit (Log l).

(** [d[k]] *)
Definition getitem (d : row) (k : string) : result value :=
  match d !! k with
  | Some v => Ok v
  | None => Raise (KeyError k)
  end.

(** Sequencing of pure computations that can raise. *)
Definition and_then {A B} (r : result A) (k : A -> result B) : result B :=
  match r with
  | Ok a => k a
  | Raise e => Raise e
  end.

(** [bool(last_result) if last_result is not None else False] (line 203) *)
Definition prev_result_of (last_result : value) : bool :=
  if decide (last_result = VNone) then false else truthy last_result.

(** [d.get(k)] *)
Definition get (d : row) (k : string) : value := default VNone (d !! k).

(** [latest_close.get(symbol)]: the keys of [latest_close] are strings. *)
Definition price_of (latest_close : gmap string float) (symbol : value)
  : option float :=
  match symbol with
  | VStr s => latest_close !! s
  | _ => None
  end.

(** [severity.upper()], an [AttributeError] on anything but a [str]. *)
Definition upper (v : value) : result piece :=
  match v with
  | VStr s => Ok (Upper s)
  | _ => Raise AttributeError
  end.

Section Engine.

(** Python's [float(str)]; its decimal parser is kept abstract
    ([None]: [ValueError]). *)
Variable float_of_str : string -> option float.

(** [float(v)] *)
Definition py_float (v : value) : result float :=
  match v with
  | VFloat f => Ok f
  | VInt z => float_of_int z
  | VBool b => Ok (if b then binary_normalize 53 1024 1 0 false else S754_zero false)
  | VStr s => match float_of_str s with Some f => Ok f | None => Raise ValueError end
  | VNone => Raise TypeError
  end.

Variable o : oracle.

(** [datetime.now(timezone.utc)] *)
Definition now : M datetime :=
  fun w => (Ok (utcnow o (clock w)),
            {| alert_rules := alert_rules w;
               volatility_prices := volatility_prices w;
               trace := trace w;
               clock := S (clock w) |}).

(** [formataddr(("Volatility Alert", address))] (line 136): the address
    has to be ASCII. *)
Definition formataddr (address : string) : result string :=
  if is_ascii address then Ok ("Volatility Alert <" +:+ address +:+ ">")
  else Raise UnicodeEncodeError.

(** [send_alert_email(to_email, subject, body)] *)
Definition send_alert_email (to_email : value) (subject : text)
    (body : list text) : M bool :=
  let host := default "smtp.gmail.com" (environ o !! "SMTP_HOST") in
  let* port := lift (py_int (default "587" (environ o !! "SMTP_PORT"))) in
  let user := environ o !! "SMTP_USER" in
  let password := environ o !! "SMTP_PASS" in
  let from_email :=
    if env_falsy (environ o !! "FROM_EMAIL") then user
    else environ o !! "FROM_EMAIL" in
  if env_falsy user || env_falsy password || env_falsy from_email then
    print LogSmtpWarn >> ret false
  else
    let* _ := lift (formataddr (default "" from_email)) in
    let msg := {| mail_host := host; mail_port := port;
                  mail_user := default "" user;
                  mail_password := default "" password;
                  mail_from := default "" from_email;
                  mail_to := to_email;
                  mail_subject := subject; mail_body := body |} in
    if smtp_ok o msg then
      emit (Smtp msg true) >> print (LogMailSent to_email) >> ret true
    else
      emit (Smtp msg false) >> print LogMailError >> ret false.

(** The rows selected by [.select("*").eq("enabled", True)]. *)
Definition enabled_rules (tbl : list row) : list row :=
  filter (fun r : row => r !! "enabled" = Some (VBool true)) tbl.

(** [load_enabled_alert_rules()] *)
Definition load_enabled_alert_rules : M (list row) :=
  fun w =>
    if select_ok o then
      let rules := enabled_rules (alert_rules w) in
      (print (LogLoaded (length rules)) >> ret rules) w
    else (Raise StoreError, w).

(** [supabase.table(ALERT_TABLE).update(fields).eq("id", rule_id)]: every
    row whose id is [rule_id] takes the new fields. *)
Definition apply_update (rule_id : value) (fields : row) (tbl : list row)
  : list row :=
  map (fun r : row =>
         if decide (r !! "id" = Some rule_id) then fields ∪ r else r) tbl.

(** Lines 235-238: the update of the rule row, its failure caught and
    logged. *)
Definition update_rule (rule_id : value) (fields : row) : M unit :=
  fun w =>
    if update_ok o rule_id fields then
      (Ok tt, {| alert_rules := apply_update rule_id fields (alert_rules w);
                 volatility_prices := volatility_prices w;
                 trace := Update rule_id fields true :: trace w;
                 clock := clock w |})
    else
      (emit (Update rule_id fields false) >>
       print (LogUpdateError rule_id)) w.

(** Lines 181-187: the reads of the rule record, in source order. *)
Definition read_rule (rule : row) : result rule_vars :=
  and_then (getitem rule "id") (fun rule_id =>
  and_then (getitem rule "symbol_code") (fun symbol =>
  and_then (getitem rule "direction") (fun direction =>
  and_then (getitem rule "threshold") (fun threshold_v =>
  and_then (py_float threshold_v) (fun threshold =>
  let severity := py_or (get rule "severity") (VStr "notice") in
  and_then (getitem rule "email") (fun email =>
  let last_result := get rule "last_result" in
  Ok {| rule_id := rule_id; symbol := symbol; direction := direction;
        threshold := threshold; severity := severity; email := email;
        last_result := last_result |})))))).

(** Lines 216-227: subject and body of the alert mail, [t] being the clock
    reading of line 225. *)
Definition alert_subject (v : rule_vars) (sev : piece) : text :=
  [Lit "["; sev; Lit "] "; Fmt (symbol v); Lit " が閾値 ";
   FmtFloat (threshold v); Lit " を超えました"].

Definition alert_body (v : rule_vars) (price : float) (t : datetime)
  : list text :=
  [ [Lit "このメールはボラティリティ・アラートサービスから自動送信されています。"];
    [];
    [Lit "銘柄: "; Fmt (symbol v)];
    [Lit "現在の終値: "; Fix2 price];
    [Lit "条件: "; Fmt (symbol v); Lit " "; Fmt (direction v); Lit " ";
     FmtFloat (threshold v)];
    [Lit "重要度: "; Fmt (severity v)];
    [];
    [Lit "トリガー時刻 (UTC): "; Stamp t] ].

(** Lines 189-238: the rest of the loop body, on the variables read. *)
Definition check_rule (latest_close : gmap string float) (v : rule_vars)
  : M unit :=
  match price_of latest_close (symbol v) with
  | None => print (LogNoPrice (rule_id v) (symbol v))
  | Some price =>
      if decide (direction v = VStr ">=") then
        let now_result := float_ge price (threshold v) in
        let prev_result := prev_result_of (last_result v) in
        print (LogEval (rule_id v) (symbol v) (direction v) (threshold v)
                       price prev_result now_result) >>
        let update_fields : row := {[ "last_result" := VBool now_result ]} in
        let* update_fields :=
          if now_result && negb prev_result then
            let* sev := lift (upper (severity v)) in
            let subject := alert_subject v sev in
            let* t := now in
            let body := alert_body v price t in
            emit (Send (rule_id v) (email v) subject body) >>
            let* sent := send_alert_email (email v) subject body in
            if sent then
              let* t' := now in
              ret (<[ "last_triggered_at" := VStr (isoformat t') ]>
                     update_fields)
            else ret update_fields
          else ret update_fields in
        update_rule (rule_id v) update_fields
      else print (LogUnsupported (rule_id v) (direction v))
  end.

(** The body of the [for rule in rules] loop of [evaluate_alerts]. *)
Definition eval_rule (latest_close : gmap string float) (rule : row)
  : M unit :=
  let* v := lift (read_rule rule) in
  check_rule latest_close v.

(** The [for] loop: an exception ends it. *)
Fixpoint eval_rules (latest_close : gmap string float) (rules : list row)
  : M unit :=
  match rules with
  | [] => ret tt
  | rule :: rest =>
      eval_rule latest_close rule >> eval_rules latest_close rest
  end.

(** [evaluate_alerts(latest_close)] *)
Definition evaluate_alerts (latest_close : gmap string float) : M unit :=
  let* rules := load_enabled_alert_rules in
  match rules with
  | [] => print LogNoRules
  | _ => eval_rules latest_close rules
  end.

(** ** Ingestion *)

(** [fetch_latest_ohlc(symbol_name, yf_symbol)]: [None] stands for the
    exception raised when the history is empty or cannot be fetched. *)
Definition fetch_latest_ohlc (symbol_name yf_symbol : string) : option ohlc :=
  match history o yf_symbol with
  | None => None
  | Some latest =>
      Some {| ohlc_symbol := symbol_name; ohlc_date := bar_date latest;
              ohlc_open := bar_open latest; ohlc_high := bar_high latest;
              ohlc_low := bar_low latest; ohlc_close := bar_close latest |}
  end.

(** The effect of an upsert with [on_conflict="symbol,date"] on the table. *)
Definition same_key (a b : ohlc) : bool :=
  String.eqb (ohlc_symbol a) (ohlc_symbol b) &&
  String.eqb (ohlc_date a) (ohlc_date b).

Definition apply_upsert (r : ohlc) (tbl : list ohlc) : list ohlc :=
  if existsb (same_key r) tbl
  then map (fun x => if same_key r x then r else x) tbl
  else tbl ++ [r].

(** [upsert_ohlc(row)]: nothing catches a failure of the call. *)
Definition upsert_ohlc (r : ohlc) : M unit :=
  fun w =>
    if upsert_ok o r then
      (print (LogUpsertResult r))
        {| alert_rules := alert_rules w;
           volatility_prices := apply_upsert r (volatility_prices w);
           trace := Upsert r true :: trace w;
           clock := clock w |}
    else (emit (Upsert r false) >> raise StoreError) w.

(** The [for logical_name, yf_symbol in INDEX_TICKERS.items()] loop of
    [main], [latest_close] being its accumulator. *)
Fixpoint ingest (tickers : list (string * string))
    (latest_close : gmap string float) : M (gmap string float) :=
  match tickers with
  | [] => ret latest_close
  | (logical_name, yf_symbol) :: rest =>
      print (LogFetching logical_name yf_symbol) >>
      match fetch_latest_ohlc logical_name yf_symbol with
      | None =>
          print (LogFetchError logical_name) >> ingest rest latest_close
      | Some r =>
          print (LogLatest r) >>
          print LogUpserting >>
          upsert_ohlc r >>
          print LogDone >>
          ingest rest (<[ logical_name := ohlc_close r ]> latest_close)
      end
  end.

(** [main()], over the configured tickers. *)
Definition main_with (tickers : list (string * string)) : M unit :=
  print LogBanner >>
  let* latest_close := ingest tickers ∅ in
  print LogChecking >>
  evaluate_alerts latest_close >>
  print LogAllDone.

End Engine.

Definition INDEX_TICKERS : list (string * string) :=
  [("VIX", "^VIX"); ("NIKKEI_VI", "^NKVI.OS")].

Definition main (float_of_str : string -> option float) (o : oracle) : M unit :=
  main_with float_of_str o INDEX_TICKERS.

(** ** Reading a trace *)

(** Rule ids of the [Send] events: the notifications attempted. *)
Fixpoint sends (evs : list event) : list value :=
  match evs with
  | [] => []
  | Send i _ _ _ :: rest => i :: sends rest
  | _ :: rest => sends rest
  end.

(** The [Update] events: rule id, fields written, outcome. *)
Fixpoint updates (evs : list event) : list (value * row * bool) :=
  match evs with
  | [] => []
  | Update i f ok :: rest => (i, f, ok) :: updates rest
  | _ :: rest => updates rest
  end.

(** The SMTP sessions opened, with their outcome. *)
Fixpoint sessions (evs : list event) : list (mail * bool) :=
  match evs with
  | [] => []
  | Smtp m ok :: rest => (m, ok) :: sessions rest
  | _ :: rest => sessions rest
  end.

(** The [Upsert] events. *)
Fixpoint upserts (evs : list event) : list (ohlc * bool) :=
  match evs with
  | [] => []
  | Upsert r ok :: rest => (r, ok) :: upserts rest
  | _ :: rest => upserts rest
  end.

(** The lines printed. *)
Fixpoint prints (evs : list event) : list log_line :=
  match evs with
  | [] => []
  | Log l :: rest => l :: prints rest
  | _ :: rest => prints rest
  end.

(** The rows of the table whose id is [i]. *)
Definition rows_of (i : value) (tbl : list row) : list row :=
  filter (fun r : row => r !! "id" = Some i) tbl.

(** The table after the updates of a trace (newest first) that went
    through. *)
Fixpoint replay (us : list (value * row * bool)) (tbl : list row)
  : list row :=
  match us with
  | [] => tbl
  | (i, f, ok) :: rest =>
      let tbl' := replay rest tbl in
      if ok then apply_update i f tbl' else tbl'
  end.

(** The world with more events on its trace. *)
Definition logged (evs : list event) (w : world) : world :=
  {| alert_rules := alert_rules w;
     volatility_prices := volatility_prices w;
     trace := evs ++ trace w;
     clock := clock w |}.

(** ** Vocabulary of the properties *)

(** Fields of an update that touch nothing but the two state columns. *)
Definition update_shape (f : row) : Prop :=
  forall k, k <> "last_result" -> k <> "last_triggered_at" -> f !! k = None.

(** The port text handed to [int] at line 125. *)
Definition smtp_port_text (o : oracle) : string :=
  default "587" (environ o !! "SMTP_PORT").

(** The value of [update_fields] at line 236: [last_result], and
    [last_triggered_at] when the mail went out at instant [stamp]. *)
Definition fields_written (cur : bool) (stamp : option datetime) : row :=
  match stamp with
  | None => {[ "last_result" := VBool cur ]}
  | Some t =>
      <[ "last_triggered_at" := VStr (isoformat t) ]>
        {[ "last_result" := VBool cur ]}
  end.

(** [from_email] of line 128. *)
Definition sender_of (o : oracle) : option string :=
  if env_falsy (environ o !! "FROM_EMAIL") then environ o !! "SMTP_USER"
  else environ o !! "FROM_EMAIL".

(** The settings that pass the check of line 130. *)
Definition mail_configured (o : oracle) : bool :=
  negb (env_falsy (environ o !! "SMTP_USER")
        || env_falsy (environ o !! "SMTP_PASS")
        || env_falsy (sender_of o)).

(** The settings with which [send_alert_email] returns instead of raising:
    the port text is an integer literal and, when the mail is configured,
    the sender address is ASCII. *)
Definition notifier_returns (o : oracle) : bool :=
  match py_int (smtp_port_text o) with
  | Ok _ => negb (mail_configured o) || is_ascii (default "" (sender_of o))
  | Raise _ => false
  end.

(** Rule [rule] has id [i] and gets past both skips of the loop body. *)
Definition evaluated (fos : string -> option float)
    (lc : gmap string float) (rule : row) (i : value) : Prop :=
  exists v price,
    read_rule fos rule = Ok v /\ rule_id v = i /\
    price_of lc (symbol v) = Some price /\ direction v = VStr ">=".

(** What a trace may contain when only rules satisfying [P] are touched. *)
Definition about (P : value -> Prop) (e : event) : Prop :=
  match e with
  | Send i _ _ _ => P i
  | Update i f _ => P i /\ update_shape f
  | Upsert _ _ => False
  | _ => True
  end.

(** Running [c] from [w] only appends events, all of them [about P], leaves
    the price table alone and changes the rule table by the updates it
    logged. *)
Definition framed_at {A} (P : value -> Prop) (c : M A) (w : world) : Prop :=
  exists evs,
    trace (c w).2 = evs ++ trace w /\
    volatility_prices (c w).2 = volatility_prices w /\
    alert_rules (c w).2 = replay (updates evs) (alert_rules w) /\
    Forall (about P) evs.

(** Rows that agree on every column the engine never writes. *)
Definition static_eq (a b : row) : Prop :=
  forall k, k <> "last_result" -> k <> "last_triggered_at" -> a !! k = b !! k.

(** The row [r] after the updates of a trace (newest first) addressed to
    rule [i] that went through. *)
Fixpoint updated (i : value) (us : list (value * row * bool)) (r : row)
  : row :=
  match us with
  | [] => r
  | (j, f, ok) :: rest =>
      let r' := updated i rest r in
      if ok && bool_decide (j = i) then f ∪ r' else r'
  end.

(** A rule record of the documented shape: the five keys are there,
    [float] accepts the threshold and the severity, when set, is a
    string. *)
Definition well_formed (fos : string -> option float) (rule : row) : bool :=
  match read_rule fos rule with
  | Ok v => match severity v with VStr _ => true | _ => false end
  | Raise _ => false
  end.

(** [currentResult] of a rule in a pass, [None] when the rule is skipped. *)
Definition condition (lc : gmap string float) (v : rule_vars) : option bool :=
  match price_of lc (symbol v) with
  | None => None
  | Some price =>
      if decide (direction v = VStr ">=") then
        Some (float_ge price (threshold v))
      else None
  end.

(** Number of notifications attempted for rule [i] in a trace. *)
Definition count_sends (i : value) (evs : list event) : nat :=
  length (filter (fun j => j = i) (sends evs)).

(** The events appended to the trace between [w] and [w']. *)
Definition since (w w' : world) : list event :=
  take (length (trace w') - length (trace w)) (trace w').

(** One run of the program per element: the oracle of that run and the
    latest closes it evaluates. Returns, run by run, the number of
    notifications attempted for rule [i]. A run that raises does not stop
    the later runs. *)
Fixpoint notifications (fos : string -> option float) (i : value)
    (ps : list (oracle * gmap string float)) (w : world) : list nat :=
  match ps with
  | [] => []
  | (o, lc) :: rest =>
      let w' := (evaluate_alerts fos o lc w).2 in
      count_sends i (since w w') :: notifications fos i rest w'
  end.

(** The specification's edge trigger: over the successive observations of a
    condition ([None]: not observed in that pass), one notification at each
    observation that is true while the previous observation was false. *)
Fixpoint rising_edges (prev : bool) (obs : list (option bool)) : list nat :=
  match obs with
  | [] => []
  | None :: rest => 0%nat :: rising_edges prev rest
  | Some cur :: rest =>
      (if cur && negb prev then 1%nat else 0%nat) :: rising_edges cur rest
  end.

(** A run in which the rule store answers, the notifier returns and every
    update of rule [i] goes through. *)
Definition store_keeps_up (i : value) (p : oracle * gmap string float) : Prop :=
  select_ok p.1 = true /\
  notifier_returns p.1 = true /\
  forall f, update_ok p.1 i f = true.

(** The keys read with [rule[...]] at lines 181-186. *)
Definition required_keys : list string :=
  ["id"; "symbol_code"; "direction"; "threshold"; "email"].


(** ** Sample data *)

(** The float nearest to an integer. *)
Definition flt (z : Z) : float := binary_normalize 53 1024 z 0 false.

Definition no_float_of_str : string -> option float := fun _ => None.

(** A rule on VIX with threshold 20 that was never evaluated. *)
Definition rule_vix : row :=
  list_to_map
    [("id", VInt 1); ("symbol_code", VStr "VIX"); ("direction", VStr ">=");
     ("threshold", VInt 20); ("email", VStr "ops@example.org");
     ("enabled", VBool true)].

Definition vars_vix : rule_vars :=
  {| rule_id := VInt 1; symbol := VStr "VIX"; direction := VStr ">=";
     threshold := flt 20; severity := VStr "notice";
     email := VStr "ops@example.org"; last_result := VNone |}.

(** The same rule with the unsupported direction [<=]. *)
Definition rule_le : row := <[ "direction" := VStr "<=" ]> rule_vix.

Definition vars_le : rule_vars :=
  {| rule_id := VInt 1; symbol := VStr "VIX"; direction := VStr "<=";
     threshold := flt 20; severity := VStr "notice";
     email := VStr "ops@example.org"; last_result := VNone |}.

(** A rule record without its [email] key. *)
Definition rule_no_email : row := delete "email" rule_vix.

Definition bar_of (c : Z) : bar :=
  {| bar_date := "2025-01-06"; bar_open := flt c; bar_high := flt c;
     bar_low := flt c; bar_close := flt c |}.

(** VIX closes at [c]; the Nikkei VI ticker returns no history. *)
Definition vix_only (c : Z) (s : string) : option bar :=
  if String.eqb s "^VIX" then Some (bar_of c) else None.

Definition vix_row (c : Z) : ohlc :=
  {| ohlc_symbol := "VIX"; ohlc_date := "2025-01-06"; ohlc_open := flt c;
     ohlc_high := flt c; ohlc_low := flt c; ohlc_close := flt c |}.

Definition configured : gmap string string :=
  list_to_map [("SMTP_USER", "alerts@example.org"); ("SMTP_PASS", "secret")].

(** The clock of the sample runs: 2025-01-06 09:00:00 UTC and [n]
    microseconds at its [n]-th reading. *)
Definition tick (n : nat) : datetime :=
  {| dt_year := 2025; dt_month := 1; dt_day := 6; dt_hour := 9;
     dt_minute := 0; dt_second := 0; dt_microsecond := Z.of_nat n |}.

(** Everything works. *)
Definition o_fine : oracle :=
  {| environ := configured; smtp_ok := fun _ => true; select_ok := true;
     update_ok := fun _ _ => true; upsert_ok := fun _ => true;
     history := vix_only 25; utcnow := tick |}.

(** The mail goes out, the update of the rule row fails. *)
Definition o_update_fails : oracle :=
  {| environ := configured; smtp_ok := fun _ => true; select_ok := true;
     update_ok := fun _ _ => false; upsert_ok := fun _ => true;
     history := vix_only 25; utcnow := tick |}.



(** Both tickers answer, the upsert of the VIX row fails. *)
Definition o_upsert_fails : oracle :=
  {| environ := configured; smtp_ok := fun _ => true; select_ok := true;
     update_ok := fun _ _ => true; upsert_ok := fun _ => false;
     history := fun _ => Some (bar_of 25); utcnow := tick |}.

Definition world_of (tbl : list row) : world :=
  {| alert_rules := tbl; volatility_prices := []; trace := []; clock := 0 |}.

Definition close_at (c : Z) : gmap string float := {[ "VIX" := flt c ]}.

(** Every column of [a] is still a column of [b]. *)
Definition keeps_columns (a b : row) : Prop :=
  forall k, is_Some (a !! k) -> is_Some (b !! k).

(** ** The price table *)

(** The unique key of [volatility_prices]. *)
Definition ohlc_key (r : ohlc) : string * string := (ohlc_symbol r, ohlc_date r).

(** ** The history imports of [old/] *)

(** [range(0, stop, step)] for a positive [step], produced the way the
    [for] loop consumes it: [fuel] bounds the number of items. *)
Fixpoint range_from (fuel i stop step : nat) : list nat :=
  match fuel with
  | O => []
  | S fuel' =>
      if (i <? stop)%nat then i :: range_from fuel' (i + step) stop step
      else []
  end.

Definition py_range (stop step : nat) : list nat :=
  range_from stop 0 stop step.

(** [l[a:b]] for [0 <= a <= b] *)
Definition slice {A} (l : list A) (a b : nat) : list A :=
  take (b - a) (drop a l).

Definition batch_size : nat := 200.

(** The batches of the upsert loop shared by [backfill_vix_10y.py],
    [backfill_nikkei_vi_10y.py] and [import_nikkei_vi_monthly.py]: for each
    [i] of [range(0, len(rows), batch_size)], the number printed
    ([i // batch_size + 1]) and the chunk [rows[i : i + batch_size]]. *)
Definition batches {A} (rows : list A) : list (nat * list A) :=
  map (fun i => ((i / batch_size + 1)%nat, slice rows i (i + batch_size)))
      (py_range (length rows) batch_size).

(** A row of the history frame of [backfill_nikkei_vi_10y.py]; [h_date] is
    [idx.date()] as a day number. *)
Record hist_row := {
  h_date : Z;
  h_open : float;
  h_high : float;
  h_low : float;
  h_close : float
}.

(** A row appended to [rows] there; [d_date] stands for the ISO text of
    that day. *)
Record day_row := {
  d_symbol : string;
  d_date : Z;
  d_open : float;
  d_high : float;
  d_low : float;
  d_close : float
}.

(** [x != y] on floats. *)
Definition float_ne (x y : float) : bool := negb (SFeqb x y).

(** Lines 86-88: the mask of the VIX date range and [hist.loc[mask]]. *)
Definition trim (vix_min vix_max : Z) (hist : list hist_row) : list hist_row :=
  filter (fun r => Is_true ((vix_min <=? h_date r) && (h_date r <=? vix_max)))
         hist.

(** Lines 98-127, the body of the loop over the trimmed frame: [None] is
    the [continue] on a close that is NaN. *)
Definition clean_row (r : hist_row) : option day_row :=
  let close_val := h_close r in
  if float_ne close_val close_val then None
  else
    let open_val := if float_ne (h_open r) (h_open r) then close_val else h_open r in
    let high_val := if float_ne (h_high r) (h_high r) then close_val else h_high r in
    let low_val := if float_ne (h_low r) (h_low r) then close_val else h_low r in
    Some {| d_symbol := "NIKKEI_VI"; d_date := h_date r; d_open := open_val;
            d_high := high_val; d_low := low_val; d_close := close_val |}.

(** Lines 81-130 of [backfill_nikkei_vi_10y.py]: the rows to upsert, or the
    [RuntimeError] of an empty history, an empty overlap or no valid row. *)
Definition nikkei_rows (vix_min vix_max : Z) (hist : list hist_row)
  : option (list day_row) :=
  match hist with
  | [] => None
  | _ =>
      match trim vix_min vix_max hist with
      | [] => None
      | hist_trimmed =>
          match omap clean_row hist_trimmed with
          | [] => None
          | rows => Some rows
          end
      end
  end.

(** ** More sample data *)







(** Credentials set, and a sender address that is not ASCII. *)
Definition o_non_ascii_sender : oracle :=
  {| environ := <[ "FROM_EMAIL" := "アラート@example.org" ]> configured;
     smtp_ok := fun _ => true; select_ok := true;
     update_ok := fun _ _ => true; upsert_ok := fun _ => true;
     history := vix_only 25; utcnow := tick |}.

(** A rule whose severity is a number. *)
Definition rule_numeric_severity : row := <[ "severity" := VInt 3 ]> rule_vix.

(** The sample rule, disabled. *)
Definition rule_disabled : row := <[ "enabled" := VBool false ]> rule_vix.

Definition vars_numeric_severity : rule_vars :=
  {| rule_id := VInt 1; symbol := VStr "VIX"; direction := VStr ">=";
     threshold := flt 20; severity := VInt 3;
     email := VStr "ops@example.org"; last_result := VNone |}.

(** The message that [o_fine] sends to the sample address with an empty
    subject and body. *)
Definition sample_mail : mail :=
  {| mail_host := "smtp.gmail.com"; mail_port := 587;
     mail_user := "alerts@example.org"; mail_password := "secret";
     mail_from := "alerts@example.org"; mail_to := VStr "ops@example.org";
     mail_subject := []; mail_body := [] |}.

(** VIX has a bar whose close is NaN. *)
Definition close_nan : gmap string float := {[ "VIX" := S754_nan ]}.

(** Credentials set, a port that is not a number. *)
Definition o_configured_bad_port : oracle :=
  {| environ := <[ "SMTP_PORT" := "abc" ]> configured;
     smtp_ok := fun _ => true; select_ok := true;
     update_ok := fun _ _ => true; upsert_ok := fun _ => true;
     history := vix_only 25; utcnow := tick |}.

(** No ticker answers. *)
Definition o_no_data : oracle :=
  {| environ := configured; smtp_ok := fun _ => true; select_ok := true;
     update_ok := fun _ _ => true; upsert_ok := fun _ => true;
     history := fun _ => None; utcnow := tick |}.

Definition sample_hist : list hist_row :=
  [ {| h_date := 10; h_open := flt 20; h_high := flt 22; h_low := flt 19;
       h_close := flt 21 |};
    {| h_date := 11; h_open := S754_nan; h_high := flt 23; h_low := S754_nan;
       h_close := flt 22 |};
    {| h_date := 12; h_open := flt 22; h_high := flt 24; h_low := flt 21;
       h_close := S754_nan |};
    {| h_date := 40; h_open := flt 30; h_high := flt 31; h_low := flt 29;
       h_close := flt 30 |} ].

(** * Properties *)

(** ** The model on small inputs *)

Example py_int_default_port : py_int "587" = Ok 587.
Proof. reflexivity. Qed.

Example py_int_underscore : py_int " 5_87 " = Ok 587.
Proof. reflexivity. Qed.

Example py_int_letters : py_int "abc" = Raise ValueError.
Proof. reflexivity. Qed.

Example py_int_empty : py_int "" = Raise ValueError.
Proof. reflexivity. Qed.

Example float_ge_above : float_ge (flt 25) (flt 20) = true.
Proof. reflexivity. Qed.

Example float_ge_equal : float_ge (flt 20) (flt 20) = true.
Proof. reflexivity. Qed.

Example float_ge_below : float_ge (flt 15) (flt 20) = false.
Proof. reflexivity. Qed.

Example float_ge_nan : float_ge S754_nan (flt 20) = false.
Proof. reflexivity. Qed.

Example float_ge_zeros : float_ge (S754_zero true) (S754_zero false) = true.
Proof. reflexivity. Qed.

(** The scenario of the specification's testable properties: closes 25,
    26, 15 and 22 against a threshold of 20 notify, stay silent, clear and
    notify again. *)
Example edge_rearm_scenario :
  notifications no_float_of_str (VInt 1)
    [(o_fine, close_at 25); (o_fine, close_at 26);
     (o_fine, close_at 15); (o_fine, close_at 22)]
    (world_of [rule_vix])
  = [1; 0; 0; 1]%nat.
Proof. vm_compute. reflexivity. Qed.

(** The stored state after the first of these runs. *)
Example state_after_first_run :
  map (fun r : row => (r !! "last_result", r !! "last_triggered_at"))
      (alert_rules (evaluate_alerts no_float_of_str o_fine (close_at 25)
                      (world_of [rule_vix])).2)
  = [(Some (VBool true), Some (VStr "2025-01-06T09:00:00.000001+00:00"))].
Proof. vm_compute. reflexivity. Qed.

(** ** Reading traces and replaying updates *)

Lemma sends_app a b : sends (a ++ b) = sends a ++ sends b.
Proof. induction a as [|[] a IH]; cbn; congruence. Qed.

Lemma updates_app a b : updates (a ++ b) = updates a ++ updates b.
Proof. induction a as [|[] a IH]; cbn; congruence. Qed.

Lemma sessions_app a b : sessions (a ++ b) = sessions a ++ sessions b.
Proof. induction a as [|[] a IH]; cbn; congruence. Qed.

Lemma upserts_app a b : upserts (a ++ b) = upserts a ++ upserts b.
Proof. induction a as [|[] a IH]; cbn; congruence. Qed.

Lemma replay_app a b tbl : replay (a ++ b) tbl = replay a (replay b tbl).
Proof.
  induction a as [|[[i f] ok] a IH]; cbn; [reflexivity|]. now rewrite IH.
Qed.

Lemma since_ext w w' evs : trace w' = evs ++ trace w -> since w w' = evs.
Proof.
  intros H. unfold since. rewrite H, length_app.
  replace (length evs + length (trace w) - length (trace w))%nat
    with (length evs) by lia.
  apply take_app_length.
Qed.

Lemma filter_none {A} (P : A -> Prop) `{!forall x, Decision (P x)} (l : list A) :
  (forall x, x ∈ l -> ~ P x) -> filter P l = [].
Proof.
  induction l as [|a l IH]; intros Hall; [reflexivity|].
  rewrite filter_cons_False; [|apply Hall; left].
  apply IH. intros x Hx. apply Hall. right. exact Hx.
Qed.

Lemma filter_singleton_split {A} (P : A -> Prop) `{!forall x, Decision (P x)}
    (l : list A) x :
  filter P l = [x] ->
  exists pre post, l = pre ++ x :: post /\ filter P pre = [] /\ filter P post = [].
Proof.
  induction l as [|a l IH]; [discriminate|].
  rewrite filter_cons. destruct (decide (P a)) as [Ha|Ha].
  - intros [= -> Hl]. exists [], l. auto.
  - intros Hl. destruct (IH Hl) as (pre & post & -> & H1 & H2).
    exists (a :: pre), post. rewrite filter_cons, decide_False by assumption. auto.
Qed.


Lemma count_sends_print i l : count_sends i [Log l] = 0%nat.
Proof. reflexivity. Qed.

Lemma count_sends_app i a b :
  count_sends i (a ++ b) = (count_sends i a + count_sends i b)%nat.
Proof.
  unfold count_sends. rewrite sends_app, filter_app, length_app. reflexivity.
Qed.

(** Between two notifications counted by [rising_edges] there is an
    observation of the condition being false. *)
Lemma rising_edges_after_true obs : forall n,
  rising_edges true obs !! n = Some 1%nat ->
  exists c, (c < n)%nat /\ obs !! c = Some (Some false).
Proof.
  induction obs as [|[[]|] obs IH]; intros n; cbn [rising_edges].
  - intros H. discriminate.
  - destruct n as [|n]; cbn; [discriminate|].
    intros H. destruct (IH n H) as (c & Hc & Ho). exists (S c). split; [lia|exact Ho].
  - destruct n as [|n]; cbn; [discriminate|].
    intros _. exists 0%nat. split; [lia|reflexivity].
  - destruct n as [|n]; cbn; [discriminate|].
    intros H. destruct (IH n H) as (c & Hc & Ho). exists (S c). split; [lia|exact Ho].
Qed.

Lemma rising_edges_rearm obs : forall prev a b,
  (a < b)%nat ->
  rising_edges prev obs !! a = Some 1%nat ->
  rising_edges prev obs !! b = Some 1%nat ->
  exists c, (a < c < b)%nat /\ obs !! c = Some (Some false).
Proof.
  induction obs as [|ob obs IH]; intros prev a b Hab Ha Hb; [discriminate|].
  destruct b as [|b]; [lia|].
  destruct a as [|a].
  - assert (Hb' : rising_edges true obs !! b = Some 1%nat).
    { destruct ob as [[]|]; cbn in Ha, Hb; try discriminate. exact Hb. }
    assert (ob = Some true) as ->.
    { destruct ob as [[]|]; cbn in Ha; try discriminate; reflexivity. }
    destruct (rising_edges_after_true obs b Hb') as (c & Hc & Ho).
    exists (S c). split; [lia|exact Ho].
  - assert (exists prev', rising_edges prev' obs !! a = Some 1%nat /\
                          rising_edges prev' obs !! b = Some 1%nat)
      as (prev' & Ha' & Hb').
    { destruct ob as [cur|]; cbn in Ha, Hb; eauto. }
    destruct (IH prev' a b ltac:(lia) Ha' Hb') as (c & Hc & Ho).
    exists (S c). split; [lia|exact Ho].
Qed.

(** ** The rule table under updates *)

Section Tables.

Variable fos : string -> option float.

Lemma shape_result b : update_shape {[ "last_result" := VBool b ]}.
Proof. intros k H1 H2. apply lookup_singleton_ne. congruence. Qed.

Lemma shape_triggered b t :
  update_shape (<[ "last_triggered_at" := VStr t ]> {[ "last_result" := VBool b ]}).
Proof.
  intros k H1 H2. rewrite lookup_insert_ne by congruence.
  apply lookup_singleton_ne. congruence.
Qed.

Lemma fields_written_result cur stamp :
  fields_written cur stamp !! "last_result" = Some (VBool cur).
Proof.
  destruct stamp; cbn.
  - rewrite lookup_insert_ne by discriminate. apply lookup_singleton_eq.
  - apply lookup_singleton_eq.
Qed.

Lemma fields_written_shape cur stamp : update_shape (fields_written cur stamp).
Proof. destruct stamp; [apply shape_triggered|apply shape_result]. Qed.

Lemma union_static (f r : row) : update_shape f -> static_eq r (f ∪ r).
Proof.
  intros Hf k H1 H2. symmetry. apply lookup_union_r. apply Hf; assumption.
Qed.

Lemma static_eq_refl r : static_eq r r.
Proof. intros k _ _. reflexivity. Qed.

Lemma static_eq_trans a b c : static_eq a b -> static_eq b c -> static_eq a c.
Proof. intros H1 H2 k K1 K2. rewrite H1, H2; auto. Qed.

Lemma rows_of_apply_update_eq i f tbl :
  update_shape f ->
  rows_of i (apply_update i f tbl) = map (fun r => f ∪ r) (rows_of i tbl).
Proof.
  intros Hf. unfold rows_of, apply_update.
  induction tbl as [|r tbl IH]; [reflexivity|].
  cbn [map]. rewrite !filter_cons, IH.
  destruct (decide (r !! "id" = Some i)) as [E|N].
  - rewrite decide_True; [reflexivity|].
    rewrite <- (union_static f r Hf "id") by discriminate. exact E.
  - rewrite decide_False by exact N. reflexivity.
Qed.

Lemma rows_of_apply_update_ne i j f tbl :
  update_shape f -> j <> i ->
  rows_of i (apply_update j f tbl) = rows_of i tbl.
Proof.
  intros Hf Hji. unfold rows_of, apply_update.
  induction tbl as [|r tbl IH]; [reflexivity|].
  cbn [map]. rewrite !filter_cons, IH.
  destruct (decide (r !! "id" = Some j)) as [E|N]; [|reflexivity].
  rewrite !decide_False; [reflexivity| |]; try congruence.
  rewrite <- (union_static f r Hf "id") by discriminate. congruence.
Qed.

Lemma rows_of_apply_update i j f tbl :
  update_shape f ->
  rows_of i (apply_update j f tbl)
  = (if bool_decide (j = i) then map (fun r => f ∪ r) (rows_of i tbl)
     else rows_of i tbl).
Proof.
  intros Hf. destruct (bool_decide_reflect (j = i)) as [->|N].
  - apply rows_of_apply_update_eq; assumption.
  - apply rows_of_apply_update_ne; assumption.
Qed.

Lemma rows_of_replay i us tbl :
  Forall (fun u : value * row * bool => update_shape u.1.2) us ->
  rows_of i (replay us tbl) = map (updated i us) (rows_of i tbl).
Proof.
  induction 1 as [|[[j f] ok] us Hf Hus IH]; cbn [replay updated].
  - symmetry. apply map_id.
  - cbn in Hf. destruct ok; cbn [andb].
    + rewrite rows_of_apply_update, IH by assumption.
      destruct (bool_decide (j = i)); [|reflexivity].
      rewrite map_map. reflexivity.
    + exact IH.
Qed.

Lemma updated_other i us r :
  Forall (fun u : value * row * bool => u.1.1 <> i) us -> updated i us r = r.
Proof.
  induction 1 as [|[[j f] ok] us Hj Hus IH]; cbn [updated]; [reflexivity|].
  cbn in Hj. rewrite bool_decide_eq_false_2 by assumption.
  rewrite andb_false_r. exact IH.
Qed.

Lemma apply_update_static j f tbl :
  update_shape f -> Forall2 static_eq tbl (apply_update j f tbl).
Proof.
  intros Hf. unfold apply_update. induction tbl as [|r tbl IH]; cbn; constructor; auto.
  destruct (decide _); [apply union_static; assumption|apply static_eq_refl].
Qed.

Lemma replay_static us tbl :
  Forall (fun u : value * row * bool => update_shape u.1.2) us ->
  Forall2 static_eq tbl (replay us tbl).
Proof.
  induction 1 as [|[[j f] ok] us Hf Hus IH]; cbn [replay].
  - induction tbl; constructor; auto using static_eq_refl.
  - destruct ok; [|exact IH].
    eapply Forall2_trans; [|exact IH|apply apply_update_static; exact Hf].
    intros a b c. apply static_eq_trans.
Qed.


Lemma rows_of_enabled i tbl :
  rows_of i (enabled_rules tbl) = enabled_rules (rows_of i tbl).
Proof.
  unfold rows_of, enabled_rules. induction tbl as [|r tbl IH]; [reflexivity|].
  rewrite !filter_cons.
  destruct (decide (r !! "enabled" = _)), (decide (r !! "id" = _));
    rewrite ?filter_cons, ?decide_True, ?decide_False by assumption; congruence.
Qed.

Lemma read_rule_fields rule v :
  read_rule fos rule = Ok v ->
  rule !! "id" = Some (rule_id v) /\
  rule !! "symbol_code" = Some (symbol v) /\
  rule !! "direction" = Some (direction v) /\
  (exists tv, rule !! "threshold" = Some tv /\ py_float fos tv = Ok (threshold v)) /\
  rule !! "email" = Some (email v) /\
  severity v = py_or (get rule "severity") (VStr "notice") /\
  last_result v = get rule "last_result".
Proof.
  unfold read_rule, getitem, and_then.
  destruct (rule !! "id"); [|discriminate].
  destruct (rule !! "symbol_code"); [|discriminate].
  destruct (rule !! "direction"); [|discriminate].
  destruct (rule !! "threshold") as [tv|]; [|discriminate].
  destruct (py_float fos tv) eqn:E; [|discriminate].
  destruct (rule !! "email"); [|discriminate].
  intros [= <-]. cbn. repeat split; eauto.
Qed.

Lemma read_rule_static a b v :
  static_eq a b -> read_rule fos a = Ok v ->
  read_rule fos b
  = Ok {| rule_id := rule_id v; symbol := symbol v; direction := direction v;
          threshold := threshold v; severity := severity v; email := email v;
          last_result := get b "last_result" |}.
Proof.
  intros H. unfold read_rule, getitem, get, and_then.
  rewrite <- !(H "id"), <- !(H "symbol_code"), <- !(H "direction"),
    <- !(H "threshold"), <- !(H "email"), <- !(H "severity") by discriminate.
  destruct (a !! "id"); [|discriminate].
  destruct (a !! "symbol_code"); [|discriminate].
  destruct (a !! "direction"); [|discriminate].
  destruct (a !! "threshold"); [|discriminate].
  destruct (py_float fos _); [|discriminate].
  destruct (a !! "email"); [|discriminate].
  intros [= <-]. reflexivity.
Qed.

Lemma well_formed_static a b :
  static_eq a b -> well_formed fos a = true -> well_formed fos b = true.
Proof.
  intros H. unfold well_formed.
  destruct (read_rule fos a) as [v|] eqn:E; [|discriminate].
  rewrite (read_rule_static a b v H E). cbn. auto.
Qed.

Lemma enabled_rules_static t t' :
  Forall2 static_eq t t' ->
  Forall2 static_eq (enabled_rules t) (enabled_rules t').
Proof.
  unfold enabled_rules. induction 1 as [|a b t t' Hab Ht IH]; [constructor|].
  rewrite !filter_cons. rewrite <- (Hab "enabled") by discriminate.
  destruct (decide _); [constructor|]; assumption.
Qed.

Lemma well_formed_rules_static t t' :
  Forall2 static_eq t t' ->
  Forall (fun r => well_formed fos r = true) t ->
  Forall (fun r => well_formed fos r = true) t'.
Proof.
  induction 1; intros Hw; inversion Hw; subst; constructor;
    eauto using well_formed_static.
Qed.

Lemma condition_static lc v v' :
  symbol v = symbol v' -> direction v = direction v' ->
  threshold v = threshold v' -> condition lc v = condition lc v'.
Proof. unfold condition. intros -> -> ->. reflexivity. Qed.

(** Reads of a record that misses a key. *)
Lemma read_rule_missing rule k :
  k ∈ required_keys ->
  rule !! k = None ->
  (forall tv, rule !! "threshold" = Some tv -> exists f, py_float fos tv = Ok f) ->
  exists k', k' ∈ required_keys /\ rule !! k' = None /\
             read_rule fos rule = Raise (KeyError k').
Proof.
  intros Hk Hnone Hthr. unfold read_rule, and_then, getitem.
  destruct (rule !! "id") eqn:E1;
    [|exists "id"; repeat split; auto; unfold required_keys; repeat first [left | right]].
  destruct (rule !! "symbol_code") eqn:E2;
    [|exists "symbol_code"; repeat split; auto; unfold required_keys; repeat first [left | right]].
  destruct (rule !! "direction") eqn:E3;
    [|exists "direction"; repeat split; auto; unfold required_keys; repeat first [left | right]].
  destruct (rule !! "threshold") as [tv|] eqn:E4;
    [|exists "threshold"; repeat split; auto; unfold required_keys; repeat first [left | right]].
  destruct (Hthr tv eq_refl) as [f ->].
  destruct (rule !! "email") eqn:E5;
    [|exists "email"; repeat split; auto; unfold required_keys; repeat first [left | right]].
  exfalso. unfold required_keys in Hk.
  repeat (apply elem_of_cons in Hk; destruct Hk as [->|Hk]; [congruence|]).
  inversion Hk.
Qed.

End Tables.

(** ** One run of the loop body *)

Section Steps.

Variable fos : string -> option float.
Variable o : oracle.

Lemma eval_rule_no_price lc rule v w :
  read_rule fos rule = Ok v ->
  price_of lc (symbol v) = None ->
  eval_rule fos o lc rule w
  = (Ok tt, logged [Log (LogNoPrice (rule_id v) (symbol v))] w).
Proof.
  intros Hr Hp. unfold eval_rule, bind, lift. rewrite Hr.
  unfold check_rule. rewrite Hp. reflexivity.
Qed.

Lemma eval_rule_unsupported lc rule v w price :
  read_rule fos rule = Ok v ->
  price_of lc (symbol v) = Some price ->
  direction v <> VStr ">=" ->
  eval_rule fos o lc rule w
  = (Ok tt, logged [Log (LogUnsupported (rule_id v) (direction v))] w).
Proof.
  intros Hr Hp Hd. unfold eval_rule, bind, lift. rewrite Hr.
  unfold check_rule. rewrite Hp.
  destruct (decide (direction v = VStr ">=")) as [E|_]; [contradiction|].
  reflexivity.
Qed.

Lemma eval_rule_raise lc rule e w :
  read_rule fos rule = Raise e ->
  eval_rule fos o lc rule w = (Raise e, w).
Proof.
  intros Hr. unfold eval_rule, bind, lift. rewrite Hr. reflexivity.
Qed.

(** [int] raises nothing but [ValueError]. *)
Lemma py_int_raises s e : py_int s = Raise e -> e = ValueError.
Proof.
  assert (L : forall t, long_from_string t = Raise e -> e = ValueError).
  { intros t. unfold long_from_string.
    destruct (match rstrip (lstrip t) with
              | EmptyString => _ | String _ _ => _ end); congruence. }
  unfold py_int. destruct (is_ascii s); [apply L|].
  destruct (code_points s) as [cps|]; [|congruence].
  destruct (transform_decimal_and_space cps); [apply L|congruence].
Qed.

(** [send_alert_email] with settings that let it return. *)
Lemma send_alert_email_returns to subject body w :
  notifier_returns o = true ->
  exists sent evs,
    send_alert_email o to subject body w = (Ok sent, logged evs w) /\
    sends evs = [] /\ updates evs = [] /\ upserts evs = [] /\
    (sent = true /\ (exists m, sessions evs = [(m, true)]) \/
     sent = false /\ forall m, (m, true) ∉ sessions evs).
Proof.
  unfold notifier_returns, mail_configured, sender_of, smtp_port_text.
  intros Hn. unfold send_alert_email, bind, lift.
  destruct (py_int _) as [p|]; [|discriminate].
  destruct (env_falsy _ || env_falsy _ || env_falsy _).
  - exists false, [Log LogSmtpWarn]. repeat split; auto.
    right. split; [reflexivity|]. intros m Hm. inversion Hm.
  - cbn [negb orb] in Hn. unfold formataddr. rewrite Hn.
    match goal with |- context [smtp_ok o ?m] => destruct (smtp_ok o m) eqn:Hs; set (msg := m) end.
    + exists true, [Log (LogMailSent to); Smtp msg true].
      repeat split; auto. left. split; [reflexivity|]. exists msg. reflexivity.
    + exists false, [Log LogMailError; Smtp msg false].
      repeat split; auto. right. split; [reflexivity|].
      intros m Hm. cbn in Hm. apply list_elem_of_singleton in Hm. discriminate.
Qed.

(** With any other settings it raises, before doing anything: [ValueError]
    for the port, [UnicodeEncodeError] for the sender address. *)
Lemma send_alert_email_raises to subject body w :
  notifier_returns o = false ->
  send_alert_email o to subject body w
  = (Raise (match py_int (smtp_port_text o) with
            | Ok _ => UnicodeEncodeError
            | Raise _ => ValueError
            end), w).
Proof.
  unfold notifier_returns, mail_configured, sender_of, smtp_port_text.
  intros Hn. unfold send_alert_email, bind, lift.
  destruct (py_int _) as [p|e] eqn:Hp.
  - destruct (env_falsy _ || env_falsy _ || env_falsy _); [discriminate|].
    cbn [negb orb] in Hn. unfold formataddr. rewrite Hn. reflexivity.
  - apply py_int_raises in Hp. subst e. reflexivity.
Qed.


Lemma update_rule_run i f w :
  exists w',
    update_rule o i f w = (Ok tt, w') /\
    (exists evs, trace w' = evs ++ trace w /\
       updates evs = [(i, f, update_ok o i f)] /\ sends evs = [] /\
       sessions evs = [] /\ upserts evs = []) /\
    volatility_prices w' = volatility_prices w /\
    alert_rules w'
    = (if update_ok o i f then apply_update i f (alert_rules w)
       else alert_rules w).
Proof.
  unfold update_rule. destruct (update_ok o i f).
  - eexists. split; [reflexivity|]. split; [|split; reflexivity].
    exists [Update i f true]. repeat split.
  - eexists. split; [reflexivity|]. split; [|split; reflexivity].
    exists [Log (LogUpdateError i); Update i f false]. repeat split.
Qed.

(** Lines 214-231: the notification branch, which yields the fields to
    write. *)
Lemma notify_part (v : rule_vars) price s (fire cur : bool) w :
  severity v = VStr s ->
  (fire = true -> notifier_returns o = true) ->
  exists stamp w' evs,
    (if fire then
       let* sev := lift (upper (severity v)) in
       let* t := now o in
       emit (Send (rule_id v) (email v) (alert_subject v sev)
                  (alert_body v price t)) >>
       let* sent := send_alert_email o (email v) (alert_subject v sev)
                      (alert_body v price t) in
       if sent then
         let* t' := now o in
         ret (<[ "last_triggered_at" := VStr (isoformat t') ]>
                ({[ "last_result" := VBool cur ]} : row))
       else ret {[ "last_result" := VBool cur ]}
     else ret {[ "last_result" := VBool cur ]}) w
    = (Ok (fields_written cur stamp), w') /\
    trace w' = evs ++ trace w /\
    volatility_prices w' = volatility_prices w /\
    alert_rules w' = alert_rules w /\
    updates evs = [] /\
    sends evs = (if fire then [rule_id v] else []) /\
    upserts evs = [] /\
    match stamp with
    | Some t =>
        fire = true /\ t = utcnow o (S (clock w)) /\
        exists m, sessions evs = [(m, true)]
    | None => forall m, (m, true) ∉ sessions evs
    end.
Proof.
  intros Hsev Hport. destruct fire.
  - specialize (Hport eq_refl).
    rewrite Hsev. unfold upper, lift, bind, now, emit. cbn beta iota.
    match goal with
    | |- context [send_alert_email o ?a ?b ?c ?x] =>
        destruct (send_alert_email_returns a b c x Hport)
          as (sent & evs & Hs & Hsn & Hup & Hus & Hsess)
    end.
    rewrite Hs.
    destruct Hsess as [[-> [m Hm]] | [-> Hno]].
    + exists (Some (utcnow o (S (clock w)))). eexists.
      exists (evs ++ [Send (rule_id v) (email v)
                        (alert_subject v (Upper s))
                        (alert_body v price (utcnow o (clock w)))]).
      split; [reflexivity|]. cbn [trace logged volatility_prices alert_rules].
      rewrite <- app_assoc, updates_app, sends_app, upserts_app, sessions_app,
        Hup, Hsn, Hus, Hm.
      repeat split; auto. exists m. reflexivity.
    + exists None. eexists.
      exists (evs ++ [Send (rule_id v) (email v)
                        (alert_subject v (Upper s))
                        (alert_body v price (utcnow o (clock w)))]).
      split; [reflexivity|]. cbn [trace logged volatility_prices alert_rules].
      rewrite <- app_assoc, updates_app, sends_app, upserts_app, sessions_app,
        Hup, Hsn, Hus.
      repeat split; auto. cbn. rewrite app_nil_r. exact Hno.
  - exists None, w, []. repeat split; auto. intros m Hm. inversion Hm.
Qed.

Lemma check_rule_evaluated lc v w price s :
  price_of lc (symbol v) = Some price ->
  direction v = VStr ">=" ->
  severity v = VStr s ->
  (float_ge price (threshold v) && negb (prev_result_of (last_result v)) = true ->
   notifier_returns o = true) ->
  let cur := float_ge price (threshold v) in
  let prev := prev_result_of (last_result v) in
  exists w' evs stamp,
    check_rule o lc v w = (Ok tt, w') /\
    trace w' = evs ++ trace w /\
    volatility_prices w' = volatility_prices w /\
    alert_rules w' = replay (updates evs) (alert_rules w) /\
    updates evs
    = [(rule_id v, fields_written cur stamp,
        update_ok o (rule_id v) (fields_written cur stamp))] /\
    sends evs = (if cur && negb prev then [rule_id v] else []) /\
    upserts evs = [] /\
    Log (LogEval (rule_id v) (symbol v) (direction v) (threshold v)
                   price prev cur) ∈ evs /\
    match stamp with
    | Some t =>
        cur && negb prev = true /\ t = utcnow o (S (clock w)) /\
        exists m, sessions evs = [(m, true)]
    | None => forall m, (m, true) ∉ sessions evs
    end.
Proof.
  intros Hprice Hdir Hsev Hport cur prev.
  unfold check_rule. rewrite Hprice.
  destruct (decide (direction v = VStr ">=")) as [_|N]; [|contradiction].
  fold cur prev. unfold bind at 1. unfold print at 1, emit at 1.
  cbn beta iota. unfold bind at 1.
  match goal with
  | |- context [(if _ then _ else _) ?x] =>
      destruct (notify_part v price s (cur && negb prev) cur x Hsev Hport)
        as (stamp & w1 & evs1 & H1 & Ht1 & Hv1 & Ha1 & Hu1 & Hs1 & Hp1 & Hst)
  end.
  rewrite H1.
  destruct (update_rule_run (rule_id v) (fields_written cur stamp) w1)
    as (w2 & H2 & (evs2 & Ht2 & Hu2 & Hs2 & Hss2 & Hp2) & Hv2 & Ha2).
  exists w2, (evs2 ++ evs1 ++ [Log (LogEval (rule_id v) (symbol v)
            (direction v) (threshold v) price prev cur)]), stamp.
  split; [exact H2|].
  cbn [trace volatility_prices alert_rules clock] in *.
  rewrite !updates_app, !sends_app, !upserts_app, !sessions_app, !replay_app,
    Hu1, Hu2, Hs1, Hs2, Hp1, Hp2, Hss2.
  split; [rewrite Ht2, Ht1, <- !app_assoc; reflexivity|].
  split; [congruence|].
  split.
  { rewrite Ha2, Ha1. cbn. destruct (update_ok _ _ _); reflexivity. }
  split; [reflexivity|].
  split; [cbn; rewrite app_nil_r; reflexivity|].
  split; [reflexivity|].
  split; [rewrite !elem_of_app; right; right; apply list_elem_of_singleton; reflexivity|].
  destruct stamp as [t|].
  - destruct Hst as (Hf & -> & m & Hm). repeat split; auto.
    exists m. cbn. rewrite app_nil_r. exact Hm.
  - cbn. rewrite app_nil_r. exact Hst.
Qed.

(** The notifier is called on a rising edge and only then, whether or not
    the call returns. *)
Lemma check_rule_sends lc v w price s :
  price_of lc (symbol v) = Some price ->
  direction v = VStr ">=" ->
  severity v = VStr s ->
  let cur := float_ge price (threshold v) in
  let prev := prev_result_of (last_result v) in
  exists evs,
    trace (check_rule o lc v w).2 = evs ++ trace w /\
    Log (LogEval (rule_id v) (symbol v) (direction v) (threshold v)
                   price prev cur) ∈ evs /\
    sends evs = (if cur && negb prev then [rule_id v] else []).
Proof.
  intros Hprice Hdir Hsev cur prev.
  destruct (notifier_returns o) eqn:Hp.
  - destruct (check_rule_evaluated lc v w price s Hprice Hdir Hsev (fun _ => Hp))
      as (w' & evs & st & H & Ht & _ & _ & _ & Hs & _ & Hl & _).
    rewrite H. exists evs. auto.
  - unfold check_rule. rewrite Hprice.
    destruct (decide (direction v = VStr ">=")) as [_|N]; [|contradiction].
    fold cur prev. unfold bind at 1. unfold print at 1, emit at 1.
    cbn beta iota. unfold bind at 1.
    destruct (cur && negb prev).
    + rewrite Hsev. unfold upper, lift, bind, now, emit.
      cbn beta iota. rewrite (send_alert_email_raises _ _ _ _ Hp).
      cbn [snd trace].
      eexists [_; _]. split; [reflexivity|]. split; [|reflexivity].
      right. left.
    + unfold ret.
      match goal with
      | |- context [update_rule o ?i ?f ?x] =>
          destruct (update_rule_run i f x)
            as (w2 & H2 & (evs2 & Ht2 & Hu2 & Hs2 & _) & _)
      end.
      rewrite H2. cbn [snd]. rewrite Ht2. cbn [trace].
      exists (evs2 ++ [Log (LogEval (rule_id v) (symbol v) (direction v)
                                 (threshold v) price prev cur)]).
      rewrite <- app_assoc, sends_app, Hs2. repeat split.
      apply elem_of_app. right. left.
Qed.


End Steps.

(** ** What a pass can touch *)

Section Frame.

Variable fos : string -> option float.
Variable o : oracle.

Lemma framed_weaken {A} (P Q : value -> Prop) (c : M A) w :
  (forall i, P i -> Q i) -> framed_at P c w -> framed_at Q c w.
Proof.
  intros HPQ (evs & H1 & H2 & H3 & H4). exists evs. repeat split; auto.
  eapply Forall_impl; [exact H4|].
  intros [] HP; cbn in *; intuition auto.
Qed.

Lemma framed_quiet {A} P (c : M A) w evs :
  (c w).2 = logged evs w -> updates evs = [] -> Forall (about P) evs ->
  framed_at P c w.
Proof.
  intros H Hu HP. exists evs. rewrite H. cbn. rewrite Hu. auto.
Qed.

Lemma framed_ret {A} P (a : A) w : framed_at P (ret a) w.
Proof. exists []. repeat split; auto. Qed.

Lemma framed_lift {A} P (r : result A) w : framed_at P (lift r) w.
Proof. exists []. repeat split; auto. Qed.

Lemma framed_print P l w : framed_at P (print l) w.
Proof.
  apply framed_quiet with (evs := [Log l]); auto.
  constructor; [exact I|constructor].
Qed.

Lemma framed_bind {A B} P (c : M A) (k : A -> M B) w :
  framed_at P c w ->
  (forall a, (c w).1 = Ok a -> framed_at P (k a) (c w).2) ->
  framed_at P (bind c k) w.
Proof.
  intros (evs & H1 & H2 & H3 & H4) Hk. unfold framed_at, bind in *.
  destruct (c w) as [[a|e] w1] eqn:E; cbn in *.
  - destruct (Hk a eq_refl) as (evs' & K1 & K2 & K3 & K4).
    exists (evs' ++ evs). rewrite K1, K2, K3, H1, H2, H3, updates_app, replay_app, app_assoc.
    repeat split; auto. apply Forall_app; auto.
  - exists evs. auto.
Qed.

Lemma framed_now P w : framed_at P (now o) w.
Proof. exists []. repeat split; auto. Qed.

Lemma framed_send P to subject body w :
  framed_at P (send_alert_email o to subject body) w.
Proof.
  unfold send_alert_email. apply framed_bind; [apply framed_lift|].
  intros port _.
  destruct (env_falsy _ || env_falsy _ || env_falsy _).
  - apply framed_quiet with (evs := [Log LogSmtpWarn]); auto.
    repeat constructor.
  - apply framed_bind; [apply framed_lift|]. intros _ _.
    match goal with |- context [smtp_ok o ?m] => destruct (smtp_ok o m); set (msg := m) end.
    + apply framed_quiet with (evs := [Log (LogMailSent to); Smtp msg true]); auto.
      repeat constructor.
    + apply framed_quiet with (evs := [Log LogMailError; Smtp msg false]); auto.
      repeat constructor.
Qed.

Lemma framed_update (P : value -> Prop) i f w :
  P i -> update_shape f -> framed_at P (update_rule o i f) w.
Proof.
  intros HP Hf. unfold update_rule. destruct (update_ok o i f).
  - exists [Update i f true]. repeat split; auto. repeat constructor; auto.
  - exists [Log (LogUpdateError i); Update i f false]. repeat split; auto.
    repeat constructor; auto.
Qed.

Lemma framed_check lc v w :
  framed_at
    (fun i => i = rule_id v /\ exists price,
       price_of lc (symbol v) = Some price /\ direction v = VStr ">=")
    (check_rule o lc v) w.
Proof.
  unfold check_rule.
  destruct (price_of lc (symbol v)) as [price|]; [|apply framed_print].
  destruct (decide (direction v = VStr ">=")) as [Hd|]; [|apply framed_print].
  assert (HP : rule_id v = rule_id v /\ exists price0,
             Some price = Some price0 /\ direction v = VStr ">=") by eauto.
  apply framed_bind; [apply framed_print|]. intros _ _.
  apply framed_bind.
  - destruct (_ && _); [|apply framed_ret].
    apply framed_bind; [apply framed_lift|]. intros sev _.
    apply framed_bind; [apply framed_now|]. intros t _.
    apply framed_bind.
    { apply framed_quiet with (evs := [Send (rule_id v) (email v)
         (alert_subject v sev) (alert_body v price t)]); auto. }
    intros _ _. apply framed_bind; [apply framed_send|].
    intros [] _; [|apply framed_ret].
    apply framed_bind; [apply framed_now|]. intros; apply framed_ret.
  - intros f Hf. apply framed_update; [exact HP|].
    revert Hf. generalize (LogEval (rule_id v) (symbol v) (direction v) (threshold v) price
        (prev_result_of (last_result v)) (float_ge price (threshold v))).
    intros l.
    unfold bind, lift, now, emit, ret, send_alert_email, print, emit.
    destruct (_ && _); cbn; [|intros [= <-]; apply shape_result].
    destruct (upper (severity v)); cbn; [|discriminate].
    destruct (py_int _); cbn; [|discriminate].
    destruct (env_falsy _ || env_falsy _ || env_falsy _); cbn.
    { intros [= <-]; apply shape_result. }
    destruct (formataddr _); cbn; [|discriminate].
    destruct (smtp_ok o _); cbn; intros [= <-];
      [apply shape_triggered|apply shape_result].
Qed.

Lemma framed_eval_rule lc rule w :
  framed_at (evaluated fos lc rule) (eval_rule fos o lc rule) w.
Proof.
  unfold eval_rule. apply framed_bind; [apply framed_lift|].
  intros v Hv. cbn in Hv. eapply framed_weaken; [|apply framed_check].
  intros i (-> & price & Hp & Hd). exists v, price. auto.
Qed.

Lemma framed_eval_rules lc rules w :
  framed_at (fun i => exists rule, rule ∈ rules /\ evaluated fos lc rule i)
            (eval_rules fos o lc rules) w.
Proof.
  revert w. induction rules as [|rule rules IH]; intros w; cbn [eval_rules].
  - apply framed_ret.
  - apply framed_bind.
    + eapply framed_weaken; [|apply framed_eval_rule].
      intros i Hi. exists rule. split; [left|exact Hi].
    + intros _ _. eapply framed_weaken; [|apply IH].
      intros i (r & Hr & Hi). exists r. split; [right; exact Hr|exact Hi].
Qed.

Lemma framed_evaluate_alerts lc w :
  framed_at
    (fun i => exists rule,
       rule ∈ alert_rules w /\ rule !! "enabled" = Some (VBool true) /\
       evaluated fos lc rule i)
    (evaluate_alerts fos o lc) w.
Proof.
  assert (Hin : forall i,
    (exists rule, rule ∈ enabled_rules (alert_rules w) /\
                  evaluated fos lc rule i) ->
    exists rule, rule ∈ alert_rules w /\
      rule !! "enabled" = Some (VBool true) /\ evaluated fos lc rule i).
  { intros i (r & Hr & He). exists r.
    apply list_elem_of_filter in Hr. tauto. }
  unfold evaluate_alerts. apply framed_bind.
  - unfold load_enabled_alert_rules. destruct (select_ok o).
    + apply framed_bind; [apply framed_print|]. intros; apply framed_ret.
    + exists []. repeat split; auto.
  - intros rules Hr.
    assert (Hl : (load_enabled_alert_rules o w).1 = Ok rules ->
                 rules = enabled_rules (alert_rules w)).
    { unfold load_enabled_alert_rules. destruct (select_ok o); cbn; congruence. }
    specialize (Hl Hr). subst rules.
    assert (Ht : alert_rules (load_enabled_alert_rules o w).2 = alert_rules w).
    { unfold load_enabled_alert_rules. destruct (select_ok o); reflexivity. }
    eapply framed_weaken; [exact Hin|].
    destruct (enabled_rules (alert_rules w)) eqn:E; [apply framed_print|].
    apply framed_eval_rules.
Qed.

Lemma about_sends P evs i : Forall (about P) evs -> i ∈ sends evs -> P i.
Proof.
  induction 1 as [|e evs He Hevs IH]; cbn; [intros H; inversion H|].
  destruct e; cbn in *; auto. intros [->|H]%elem_of_cons; auto.
Qed.

Lemma about_updates P evs :
  Forall (about P) evs ->
  Forall (fun u : value * row * bool => P u.1.1 /\ update_shape u.1.2)
         (updates evs).
Proof.
  induction 1 as [|e evs He Hevs IH]; cbn; [constructor|].
  destruct e; cbn in *; auto.
Qed.

Lemma about_count_sends P evs i :
  Forall (about P) evs -> ~ P i -> count_sends i evs = 0%nat.
Proof.
  intros H N. unfold count_sends.
  rewrite filter_none; [reflexivity|].
  intros j Hj ->. apply N. eapply about_sends; eauto.
Qed.

Lemma about_rows P evs i tbl :
  Forall (about P) evs -> ~ P i ->
  rows_of i (replay (updates evs) tbl) = rows_of i tbl.
Proof.
  intros H N. apply about_updates in H.
  rewrite rows_of_replay.
  - rewrite <- (map_id (rows_of i tbl)) at 2. apply map_ext.
    intros r. apply updated_other.
    eapply Forall_impl; [exact H|].
    intros [[j f] ok] [HP _]; cbn in *. intros ->. auto.
  - eapply Forall_impl; [exact H|]. intros u [_ Hu]. exact Hu.
Qed.

Lemma about_static P evs tbl :
  Forall (about P) evs -> Forall2 static_eq tbl (replay (updates evs) tbl).
Proof.
  intros H. apply replay_static. apply about_updates in H.
  eapply Forall_impl; [exact H|]. intros u [_ Hu]. exact Hu.
Qed.

Lemma evaluated_in_rows lc rules i :
  rows_of i rules = [] ->
  ~ exists rule, rule ∈ rules /\ evaluated fos lc rule i.
Proof.
  intros Hrows (r & Hr & v & price & Hread & Hid & _).
  apply (read_rule_fields fos) in Hread. destruct Hread as [Hi _].
  assert (r ∈ rows_of i rules) as Hin.
  { apply list_elem_of_filter. split; [congruence|assumption]. }
  rewrite Hrows in Hin. inversion Hin.
Qed.

End Frame.

(** ** A pass over well-formed rules *)

Section Pass.

Variable fos : string -> option float.
Variable o : oracle.

Lemma eval_rule_total lc rule w :
  well_formed fos rule = true ->
  notifier_returns o = true ->
  (eval_rule fos o lc rule w).1 = Ok tt.
Proof.
  unfold well_formed. intros Hwf Hp.
  destruct (read_rule fos rule) as [v|] eqn:Hr; [|discriminate].
  destruct (severity v) as [| | | |s] eqn:Hs; try discriminate.
  unfold eval_rule, bind, lift. rewrite Hr.
  destruct (price_of lc (symbol v)) as [price|] eqn:Hprice.
  - destruct (decide (direction v = VStr ">=")) as [Hd|Hd].
    + destruct (check_rule_evaluated o lc v w price s Hprice Hd Hs (fun _ => Hp))
        as (w' & evs & st & H & _). rewrite H. reflexivity.
    + unfold check_rule. rewrite Hprice.
      destruct (decide _); [contradiction|reflexivity].
  - unfold check_rule. rewrite Hprice. reflexivity.
Qed.

Lemma eval_rules_total lc rules :
  Forall (fun r => well_formed fos r = true) rules ->
  notifier_returns o = true ->
  forall w, (eval_rules fos o lc rules w).1 = Ok tt.
Proof.
  intros Hwf Hp. induction Hwf as [|r rules Hr Hrules IH]; intros w.
  - reflexivity.
  - cbn [eval_rules]. unfold bind.
    pose proof (eval_rule_total lc r w Hr Hp) as H.
    destruct (eval_rule fos o lc r w) as [[[]|e] w1]; cbn in H; [|discriminate].
    apply IH.
Qed.

Lemma eval_rules_app lc a b w :
  eval_rules fos o lc (a ++ b) w
  = (eval_rules fos o lc a >> eval_rules fos o lc b)%M w.
Proof.
  revert w. induction a as [|r a IH]; intros w; cbn [eval_rules app].
  - reflexivity.
  - unfold bind. destruct (eval_rule fos o lc r w) as [[[]|e] w1]; [|reflexivity].
    rewrite IH. reflexivity.
Qed.

(** The rule with id [i] in a pass over well-formed rules. *)
Lemma eval_rules_on_rule lc rules rule v i w :
  rows_of i rules = [rule] ->
  read_rule fos rule = Ok v ->
  Forall (fun r => well_formed fos r = true) rules ->
  notifier_returns o = true ->
  exists w' evs,
    eval_rules fos o lc rules w = (Ok tt, w') /\
    trace w' = evs ++ trace w /\
    volatility_prices w' = volatility_prices w /\
    Forall2 static_eq (alert_rules w) (alert_rules w') /\
    match condition lc v with
    | None =>
        count_sends i evs = 0%nat /\
        rows_of i (alert_rules w') = rows_of i (alert_rules w)
    | Some cur =>
        count_sends i evs
        = (if cur && negb (prev_result_of (last_result v)) then 1 else 0)%nat /\
        exists stamp,
          rows_of i (alert_rules w')
          = (if update_ok o i (fields_written cur stamp)
             then map (fun r => fields_written cur stamp ∪ r)
                      (rows_of i (alert_rules w))
             else rows_of i (alert_rules w)) /\
          (i, fields_written cur stamp,
           update_ok o i (fields_written cur stamp)) ∈ updates evs /\
          forall price, price_of lc (symbol v) = Some price ->
            Log (LogEval i (symbol v) (direction v) (threshold v) price
                   (prev_result_of (last_result v)) cur) ∈ evs
    end.
Proof.
  intros Hrows Hread Hwf Hp.
  destruct (filter_singleton_split _ _ _ Hrows) as (pre & post & -> & Hpre & Hpost).
  apply Forall_app in Hwf. destruct Hwf as [Hwpre Hwf].
  inversion Hwf as [|? ? Hwr Hwpost]; subst.
  assert (Hid : rule_id v = i).
  { apply (read_rule_fields fos) in Hread. destruct Hread as [Hi _].
    assert (rule ∈ rows_of i (pre ++ rule :: post)) as Hin by (rewrite Hrows; left).
    apply list_elem_of_filter in Hin. destruct Hin as [Hin _]. congruence. }
  rewrite eval_rules_app. unfold bind at 1.
  pose proof (eval_rules_total lc pre Hwpre Hp w) as T1.
  destruct (framed_eval_rules fos o lc pre w) as (evs1 & A1 & B1 & C1 & D1).
  destruct (eval_rules fos o lc pre w) as [r1 w1]. cbn in T1, A1, B1, C1. subst r1.
  cbn [eval_rules]. unfold bind at 1.
  pose proof (eval_rule_total lc rule w1 Hwr Hp) as T2.
  pose proof (eval_rules_total lc post Hwpost Hp) as T3.
  assert (N1 := evaluated_in_rows fos lc pre i Hpre).
  assert (N3 := evaluated_in_rows fos lc post i Hpost).
  assert (Hstep : exists evs2,
     trace (eval_rule fos o lc rule w1).2 = evs2 ++ trace w1 /\
     volatility_prices (eval_rule fos o lc rule w1).2 = volatility_prices w1 /\
     alert_rules (eval_rule fos o lc rule w1).2
       = replay (updates evs2) (alert_rules w1) /\
     Forall (fun u : value * row * bool => update_shape u.1.2) (updates evs2) /\
     match condition lc v with
     | None => count_sends i evs2 = 0%nat /\ updates evs2 = []
     | Some cur =>
         count_sends i evs2
         = (if cur && negb (prev_result_of (last_result v)) then 1 else 0)%nat /\
         exists stamp,
           updates evs2 = [(i, fields_written cur stamp,
                            update_ok o i (fields_written cur stamp))] /\
           forall price, price_of lc (symbol v) = Some price ->
             Log (LogEval i (symbol v) (direction v) (threshold v) price
                    (prev_result_of (last_result v)) cur) ∈ evs2
     end).
  { unfold condition. unfold well_formed in Hwr. rewrite Hread in Hwr.
    destruct (severity v) as [| | | |s] eqn:Hs; try discriminate.
    destruct (price_of lc (symbol v)) as [price|] eqn:Hprice.
    - destruct (decide (direction v = VStr ">=")) as [Hd|Hd].
      + unfold eval_rule, bind, lift. rewrite Hread.
        destruct (check_rule_evaluated o lc v w1 price s Hprice Hd Hs (fun _ => Hp))
          as (w2 & evs2 & st & H & Ht & Hv & Ha & Hu & Hsn & _ & Hlog & _).
        rewrite H. exists evs2. cbn [snd]. rewrite Hu, <- Hid. 
        repeat split; auto.
        * rewrite Ha, Hu. reflexivity.
        * repeat constructor. cbn. destruct st; [apply shape_triggered|apply shape_result].
        * unfold count_sends. rewrite Hsn. destruct (_ && _); cbn; [|reflexivity].
          rewrite decide_True by reflexivity. reflexivity.
        * exists st. split; [reflexivity|].
          intros price' [= <-]. exact Hlog.
      + rewrite (eval_rule_unsupported fos o lc rule v w1 price Hread Hprice Hd).
        eexists. repeat split; constructor.
    - rewrite (eval_rule_no_price fos o lc rule v w1 Hread Hprice).
      eexists. repeat split; constructor. }
  destruct Hstep as (evs2 & A2 & B2 & C2 & S2 & D2).
  destruct (eval_rule fos o lc rule w1) as [r2 w2]. cbn in T2, A2, B2, C2. subst r2.
  specialize (T3 w2).
  destruct (framed_eval_rules fos o lc post w2) as (evs3 & A3 & B3 & C3 & D3).
  destruct (eval_rules fos o lc post w2) as [r3 w3]. cbn in T3, A3, B3, C3. subst r3.
  exists w3, (evs3 ++ evs2 ++ evs1).
  split; [reflexivity|].
  split; [rewrite A3, A2, A1, <- !app_assoc; reflexivity|].
  split; [congruence|].
  split.
  { rewrite C3, C2, C1.
    eapply Forall2_trans; [apply static_eq_trans|eapply about_static; exact D1|].
    eapply Forall2_trans; [apply static_eq_trans|apply replay_static; exact S2|].
    eapply about_static; exact D3. }
  assert (R3 : rows_of i (alert_rules w3) = rows_of i (alert_rules w2)).
  { rewrite C3. eapply about_rows; eauto. }
  assert (R1 : rows_of i (alert_rules w1) = rows_of i (alert_rules w)).
  { rewrite C1. eapply about_rows; eauto. }
  rewrite !count_sends_app, (about_count_sends _ evs1 i D1 N1),
    (about_count_sends _ evs3 i D3 N3), Nat.add_0_r, Nat.add_0_l, R3, C2.
  destruct (condition lc v) as [cur|].
  - destruct D2 as [Hc (st & Hu & Hlog)]. split; [exact Hc|]. exists st.
    rewrite !updates_app, Hu. cbn [replay]. split; [|split].
    + destruct (update_ok o i _).
      * rewrite rows_of_apply_update_eq, R1; [reflexivity|].
        destruct st; [apply shape_triggered|apply shape_result].
      * exact R1.
    + apply elem_of_app. right. apply elem_of_app. left. left.
    + intros price Hprice. apply elem_of_app. right. apply elem_of_app. left.
      exact (Hlog price Hprice).
  - destruct D2 as [Hc Hu]. split; [exact Hc|]. rewrite Hu. exact R1.
Qed.

Lemma evaluate_alerts_on_rule lc rule v i w :
  rows_of i (alert_rules w) = [rule] ->
  rule !! "enabled" = Some (VBool true) ->
  read_rule fos rule = Ok v ->
  Forall (fun r => well_formed fos r = true) (enabled_rules (alert_rules w)) ->
  select_ok o = true ->
  notifier_returns o = true ->
  exists w' evs,
    evaluate_alerts fos o lc w = (Ok tt, w') /\
    trace w' = evs ++ trace w /\
    volatility_prices w' = volatility_prices w /\
    Forall2 static_eq (alert_rules w) (alert_rules w') /\
    match condition lc v with
    | None =>
        count_sends i evs = 0%nat /\ rows_of i (alert_rules w') = [rule]
    | Some cur =>
        count_sends i evs
        = (if cur && negb (prev_result_of (last_result v)) then 1 else 0)%nat /\
        exists stamp,
          rows_of i (alert_rules w')
          = [if update_ok o i (fields_written cur stamp)
             then fields_written cur stamp ∪ rule else rule] /\
          (i, fields_written cur stamp,
           update_ok o i (fields_written cur stamp)) ∈ updates evs /\
          forall price, price_of lc (symbol v) = Some price ->
            Log (LogEval i (symbol v) (direction v) (threshold v) price
                   (prev_result_of (last_result v)) cur) ∈ evs
    end.
Proof.
  intros Hrows Hen Hread Hwf Hsel Hp.
  unfold evaluate_alerts, bind, load_enabled_alert_rules. rewrite Hsel.
  cbn [print emit ret bind]. unfold bind, print, emit, ret.
  set (w0 := {| alert_rules := alert_rules w |}).
  assert (Hr0 : rows_of i (enabled_rules (alert_rules w)) = [rule]).
  { rewrite rows_of_enabled, Hrows. unfold enabled_rules.
    rewrite filter_cons_True by exact Hen. reflexivity. }
  destruct (eval_rules_on_rule lc _ rule v i w0 Hr0 Hread Hwf Hp)
    as (w' & evs & H & Ht & Hv & Hs & Hc).
  exists w', (evs ++ [Log (LogLoaded (length (enabled_rules (alert_rules w))))]).
  split.
  { destruct (enabled_rules (alert_rules w)) eqn:E; [discriminate|]. exact H. }
  split; [rewrite Ht, <- app_assoc; reflexivity|].
  split; [exact Hv|]. split; [exact Hs|].
  rewrite count_sends_app, count_sends_print, Nat.add_0_r.
  cbn [alert_rules w0] in Hc. rewrite Hrows in Hc.
  destruct (condition lc v) as [cur|]; [|exact Hc].
  destruct Hc as [Hc (st & Hst & Hup & Hlog)]. split; [exact Hc|]. exists st.
  rewrite Hst, updates_app. split; [destruct (update_ok _ _ _); reflexivity|].
  split; [apply elem_of_app; left; exact Hup|].
  intros price Hprice. apply elem_of_app. left. exact (Hlog price Hprice).
Qed.

End Pass.

(** ** Successive runs *)

Section Passes.

Variable fos : string -> option float.

Lemma notifications_follow_edges i ps : forall w rule v,
  rows_of i (alert_rules w) = [rule] ->
  rule !! "enabled" = Some (VBool true) ->
  read_rule fos rule = Ok v ->
  Forall (fun r => well_formed fos r = true) (enabled_rules (alert_rules w)) ->
  Forall (store_keeps_up i) ps ->
  notifications fos i ps w
  = rising_edges (prev_result_of (last_result v))
                 (map (fun p => condition p.2 v) ps).
Proof.
  induction ps as [|[o lc] ps IH]; intros w rule v Hrows Hen Hread Hwf Hps;
    [reflexivity|].
  inversion Hps as [|? ? [Hsel [Hp Hup]] Hps']; subst. cbn in Hsel, Hp, Hup.
  destruct (evaluate_alerts_on_rule fos o lc rule v i w Hrows Hen Hread Hwf Hsel Hp)
    as (w' & evs & H & Ht & _ & Hs & Hc).
  cbn [notifications map rising_edges snd]. rewrite H. cbn [snd].
  rewrite (since_ext w w' evs Ht).
  assert (Hwf' : Forall (fun r => well_formed fos r = true)
                        (enabled_rules (alert_rules w'))).
  { eapply well_formed_rules_static; [|exact Hwf].
    apply enabled_rules_static. exact Hs. }
  destruct (condition lc v) as [cur|] eqn:Hcond.
  - destruct Hc as [Hc (st & Hrows' & _)]. rewrite Hup in Hrows'.
    assert (Hst : static_eq rule (fields_written cur st ∪ rule))
      by (apply union_static, fields_written_shape).
    pose proof (read_rule_static fos _ _ v Hst Hread) as Hread'.
    rewrite Hc. f_equal.
    rewrite (IH w' _ _ Hrows' (eq_trans (eq_sym (Hst "enabled" ltac:(discriminate) ltac:(discriminate))) Hen) Hread' Hwf' Hps').
    cbn [last_result]. unfold get.
    rewrite (lookup_union_Some_l _ _ _ _ (fields_written_result cur st)).
    reflexivity.
  - destruct Hc as [Hc Hrows']. rewrite Hc. f_equal.
    apply (IH w' rule v Hrows' Hen Hread Hwf' Hps').
Qed.

End Passes.

(** ** The ingestion loop *)

Section Ingestion.

Variable o : oracle.





End Ingestion.

(** * The properties of the specification *)

Section Claims.

Variable fos : string -> option float.
Variable o : oracle.


(** C2, as amended. Over any sequence of runs in which the rule store
    answers, the notifier returns and the updates of the rule go through,
    the notifications attempted for a rule are exactly the rising edges of
    its observed condition, starting from its stored [last_result]; hence
    two notifications of the same rule are always separated by a run in
    which the condition was observed false. *)
Theorem exactly_once_per_edge i ps w rule v :
  rows_of i (alert_rules w) = [rule] ->
  rule !! "enabled" = Some (VBool true) ->
  read_rule fos rule = Ok v ->
  Forall (fun r => well_formed fos r = true) (enabled_rules (alert_rules w)) ->
  Forall (store_keeps_up i) ps ->
  let obs := map (fun p : oracle * gmap string float => condition p.2 v) ps in
  let sent := notifications fos i ps w in
  sent = rising_edges (prev_result_of (last_result v)) obs /\
  forall a b, (a < b)%nat ->
    sent !! a = Some 1%nat -> sent !! b = Some 1%nat ->
    exists c, (a < c < b)%nat /\ obs !! c = Some (Some false).
Proof.
  intros Hrows Hen Hread Hwf Hps obs sent.
  assert (E : sent = rising_edges (prev_result_of (last_result v)) obs)
    by (apply (notifications_follow_edges fos i ps w rule v); assumption).
  split; [exact E|]. rewrite E. intros a b. apply rising_edges_rearm.
Qed.


(** A rule that is not evaluated in a pass is left alone by the pass. *)
Lemma unevaluated_rule_untouched lc w rule i :
  rows_of i (alert_rules w) = [rule] ->
  ~ evaluated fos lc rule i ->
  exists evs,
    trace (evaluate_alerts fos o lc w).2 = evs ++ trace w /\
    count_sends i evs = 0%nat /\
    (forall f ok, (i, f, ok) ∉ updates evs) /\
    rows_of i (alert_rules (evaluate_alerts fos o lc w).2) = [rule].
Proof.
  intros Hrows Hne.
  destruct (framed_evaluate_alerts fos o lc w) as (evs & Ht & _ & Ha & Hev).
  set (P := fun j => exists r, r ∈ alert_rules w /\
             r !! "enabled" = Some (VBool true) /\ evaluated fos lc r j) in Hev.
  assert (HP : ~ P i).
  { intros (r & Hr & _ & He). apply Hne.
    assert (r ∈ rows_of i (alert_rules w)) as Hin.
    { apply list_elem_of_filter. split; [|exact Hr].
      destruct He as (v & price & Hread & Hid & _).
      apply (read_rule_fields fos) in Hread. destruct Hread as [Hi _]. congruence. }
    rewrite Hrows in Hin. apply list_elem_of_singleton in Hin. subst r. exact He. }
  exists evs. split; [exact Ht|].
  split; [apply (about_count_sends P); assumption|].
  split.
  - intros f ok Hin. apply about_updates in Hev.
    rewrite Forall_forall in Hev. apply Hev in Hin. cbn in Hin. tauto.
  - rewrite Ha, (about_rows P evs i); assumption.
Qed.

(** C4. A rule whose symbol has no entry in the latest-close map is not
    touched by the evaluation pass: the pass attempts no notification for
    it, issues no update call for it, and its row, [last_result] and
    [last_triggered_at] included, is the same after the pass. *)
Theorem missing_price_leaves_rule_untouched lc w rule i :
  rows_of i (alert_rules w) = [rule] ->
  (forall sym, rule !! "symbol_code" = Some sym -> price_of lc sym = None) ->
  exists evs,
    trace (evaluate_alerts fos o lc w).2 = evs ++ trace w /\
    count_sends i evs = 0%nat /\
    (forall f ok, (i, f, ok) ∉ updates evs) /\
    rows_of i (alert_rules (evaluate_alerts fos o lc w).2) = [rule].
Proof.
  intros Hrows Hnone. apply unevaluated_rule_untouched; [exact Hrows|].
  intros (v & price & Hread & _ & Hprice & _).
  apply (read_rule_fields fos) in Hread. destruct Hread as (_ & Hs & _).
  rewrite (Hnone _ Hs) in Hprice. discriminate.
Qed.

(** A failed update of a rule row is caught: it is recorded and logged,
    and the loop body returns normally. *)
Lemma update_failure_is_logged i f w :
  update_ok o i f = false ->
  update_rule o i f w
  = (Ok tt, logged [Log (LogUpdateError i); Update i f false] w).
Proof. intros H. unfold update_rule. rewrite H. reflexivity. Qed.

(** Whatever the outcome of its update, a well-formed rule lets the loop
    go on with the rules that follow. *)
Lemma loop_continues_after_rule lc rule rest w :
  well_formed fos rule = true ->
  notifier_returns o = true ->
  exists w',
    eval_rule fos o lc rule w = (Ok tt, w') /\
    eval_rules fos o lc (rule :: rest) w = eval_rules fos o lc rest w'.
Proof.
  intros Hwf Hp. pose proof (eval_rule_total fos o lc rule w Hwf Hp) as H.
  cbn [eval_rules]. unfold bind.
  destruct (eval_rule fos o lc rule w) as [[[]|e] w']; [|discriminate].
  exists w'. split; reflexivity.
Qed.

(** C5, at the failing input. When the upsert of a fetched price row
    fails, [main] stops with the store's exception: the symbols that follow
    are not fetched and no rule is evaluated. *)
Theorem upsert_failure_aborts_run name sym rest r w :
  fetch_latest_ohlc o name sym = Some r ->
  upsert_ok o r = false ->
  main_with fos o ((name, sym) :: rest) w
  = (Raise StoreError,
     logged [Upsert r false; Log LogUpserting; Log (LogLatest r);
             Log (LogFetching name sym); Log LogBanner] w).
Proof.
  intros Hf Hu. unfold main_with. cbn [ingest].
  unfold upsert_ohlc, bind, print, emit, raise. rewrite Hf.
  cbn beta iota. rewrite Hu. reflexivity.
Qed.

(** C6. A rule with a price whose direction is anything but [>=] is
    skipped: the loop body only prints the line about the unsupported
    direction, whatever the price and the threshold, and after the whole
    pass the rule has received no notification, no update call, and its row
    is unchanged. *)
Theorem unsupported_direction_is_skipped lc w rule i :
  rows_of i (alert_rules w) = [rule] ->
  (forall d, rule !! "direction" = Some d -> d <> VStr ">=") ->
  (forall v price w1,
     read_rule fos rule = Ok v ->
     price_of lc (symbol v) = Some price ->
     eval_rule fos o lc rule w1
     = (Ok tt, logged [Log (LogUnsupported (rule_id v) (direction v))] w1))
  /\
  exists evs,
    trace (evaluate_alerts fos o lc w).2 = evs ++ trace w /\
    count_sends i evs = 0%nat /\
    (forall f ok, (i, f, ok) ∉ updates evs) /\
    rows_of i (alert_rules (evaluate_alerts fos o lc w).2) = [rule].
Proof.
  intros Hrows Hdir. split.
  - intros v price w1 Hread Hprice.
    apply (eval_rule_unsupported fos o lc rule v w1 price Hread Hprice).
    apply (read_rule_fields fos) in Hread. destruct Hread as (_ & _ & Hd & _).
    exact (Hdir _ Hd).
  - apply unevaluated_rule_untouched; [exact Hrows|].
    intros (v & price & Hread & _ & _ & Hd).
    apply (read_rule_fields fos) in Hread. destruct Hread as (_ & _ & Hd' & _).
    exact (Hdir _ Hd' Hd).
Qed.

(** C7. A rule whose [last_result] is unset (absent or null) has
    [previousResult = false]; when its condition holds, the evaluation logs
    [prev=False now=True] and calls the notifier for it. *)
Theorem first_evaluation_notifies lc rule v price s w :
  read_rule fos rule = Ok v ->
  price_of lc (symbol v) = Some price ->
  direction v = VStr ">=" ->
  severity v = VStr s ->
  rule !! "last_result" = None \/ rule !! "last_result" = Some VNone ->
  prev_result_of (last_result v) = false /\
  (float_ge price (threshold v) = true ->
   exists evs,
     trace (eval_rule fos o lc rule w).2 = evs ++ trace w /\
     Log (LogEval (rule_id v) (symbol v) (direction v) (threshold v)
                    price false true) ∈ evs /\
     sends evs = [rule_id v]).
Proof.
  intros Hread Hprice Hdir Hsev Hunset.
  assert (Hprev : prev_result_of (last_result v) = false).
  { destruct (read_rule_fields fos rule v Hread) as (_ & _ & _ & _ & _ & _ & ->).
    unfold get. destruct Hunset as [-> | ->]; reflexivity. }
  split; [exact Hprev|]. intros Hcur.
  unfold eval_rule, bind, lift. rewrite Hread.
  destruct (check_rule_sends o lc v w price s Hprice Hdir Hsev)
    as (evs & Ht & Hl & Hs).
  rewrite Hprev, Hcur in Hl, Hs. exists evs. auto.
Qed.



(** C10. The loop body reads [id], [symbol_code], [direction], [threshold]
    and [email] with [rule[...]] before any skip check. On a rule record
    that misses one of them (its threshold, if present, being a number) the
    body raises [KeyError] for a missing key and changes nothing, whatever
    the latest closes are; the loop, and with it the pass, ends there with
    that exception, so that neither this rule nor the rules after it are
    evaluated. *)
Theorem missing_key_aborts_pass lc rule k :
  k ∈ required_keys ->
  rule !! k = None ->
  (forall tv, rule !! "threshold" = Some tv ->
              exists f, py_float fos tv = Ok f) ->
  exists k', k' ∈ required_keys /\ rule !! k' = None /\
    (forall w, eval_rule fos o lc rule w = (Raise (KeyError k'), w)) /\
    (forall rest w,
       eval_rules fos o lc (rule :: rest) w = (Raise (KeyError k'), w)) /\
    (forall rest w,
       select_ok o = true ->
       enabled_rules (alert_rules w) = rule :: rest ->
       evaluate_alerts fos o lc w
       = (Raise (KeyError k'),
          logged [Log (LogLoaded (S (length rest)))] w)).
Proof.
  intros Hk Hnone Hthr.
  destruct (read_rule_missing fos rule k Hk Hnone Hthr) as (k' & Hk' & Hn' & Hr).
  exists k'. split; [exact Hk'|]. split; [exact Hn'|].
  assert (Hstep : forall w, eval_rule fos o lc rule w = (Raise (KeyError k'), w))
    by (intros w; apply eval_rule_raise; exact Hr).
  split; [exact Hstep|]. split.
  - intros rest w. cbn [eval_rules]. unfold bind. rewrite Hstep. reflexivity.
  - intros rest w Hsel Hen. unfold evaluate_alerts, load_enabled_alert_rules.
    unfold bind at 1. rewrite Hsel, Hen. unfold bind, print, emit, ret.
    cbn [eval_rules]. unfold bind. rewrite Hstep. reflexivity.
Qed.

End Claims.

(** * The properties on the sample data *)


(** C2 as stated fails: the mail of the first run goes out, the update of
    the rule fails, and the second run, with the condition still true,
    notifies again. *)
Lemma repeated_notification_after_failed_update :
  let ps := [(o_update_fails, close_at 25); (o_fine, close_at 26)] in
  rows_of (VInt 1) [rule_vix] = [rule_vix] /\
  read_rule no_float_of_str rule_vix = Ok vars_vix /\
  map (fun p : oracle * gmap string float => condition p.2 vars_vix) ps
  = [Some true; Some true] /\
  notifications no_float_of_str (VInt 1) ps (world_of [rule_vix])
  = [1; 1]%nat /\
  notifications no_float_of_str (VInt 1) ps (world_of [rule_vix])
  <> rising_edges (prev_result_of (last_result vars_vix))
       (map (fun p : oracle * gmap string float => condition p.2 vars_vix) ps).
Proof.
  cbv zeta. repeat split; try (vm_compute; reflexivity).
  vm_compute. discriminate.
Qed.

(** C2 as amended, on two runs with closes 25 and 26. *)
Lemma exactly_once_per_edge_witness :
  notifications no_float_of_str (VInt 1)
    [(o_fine, close_at 25); (o_fine, close_at 26)] (world_of [rule_vix])
  = [1; 0]%nat.
Proof.
  assert (H1 : rows_of (VInt 1) (alert_rules (world_of [rule_vix])) = [rule_vix])
    by reflexivity.
  assert (H2 : rule_vix !! "enabled" = Some (VBool true))
    by (vm_compute; reflexivity).
  assert (H3 : read_rule no_float_of_str rule_vix = Ok vars_vix)
    by (vm_compute; reflexivity).
  assert (H4 : Forall (fun r => well_formed no_float_of_str r = true)
                 (enabled_rules (alert_rules (world_of [rule_vix])))).
  { replace (enabled_rules (alert_rules (world_of [rule_vix]))) with [rule_vix]
      by reflexivity.
    repeat constructor. }
  assert (H5 : Forall (store_keeps_up (VInt 1))
                 [(o_fine, close_at 25); (o_fine, close_at 26)]).
  { assert (K : forall lc, store_keeps_up (VInt 1) (o_fine, lc)).
    { intros lc. split; [reflexivity|].
      split; [vm_compute; reflexivity|]. intros f. reflexivity. }
    repeat constructor; apply K. }
  destruct (exactly_once_per_edge no_float_of_str (VInt 1) _ _ _ _
              H1 H2 H3 H4 H5) as [E _].
  rewrite E. vm_compute. reflexivity.
Defined.



(** C4 on the sample rule when only the Nikkei VI has a close. *)
Lemma missing_price_leaves_rule_untouched_witness :
  rows_of (VInt 1)
    (alert_rules (evaluate_alerts no_float_of_str o_fine
                    {[ "NIKKEI_VI" := flt 30 ]} (world_of [rule_vix])).2)
  = [rule_vix].
Proof.
  assert (H1 : rows_of (VInt 1) (alert_rules (world_of [rule_vix])) = [rule_vix])
    by reflexivity.
  assert (H2 : forall sym, rule_vix !! "symbol_code" = Some sym ->
                 price_of ({[ "NIKKEI_VI" := flt 30 ]} : gmap string float) sym = None).
  { intros sym Hs.
    assert (E : rule_vix !! "symbol_code" = Some (VStr "VIX"))
      by (vm_compute; reflexivity).
    rewrite E in Hs. injection Hs as <-. vm_compute. reflexivity. }
  destruct (missing_price_leaves_rule_untouched no_float_of_str o_fine
              _ _ _ _ H1 H2) as (evs & _ & _ & _ & H).
  exact H.
Defined.

(** C5 at the failing input: both tickers have data, the upsert of the VIX
    row fails, and the run ends before the Nikkei VI is fetched. *)
Lemma upsert_failure_aborts_run_witness :
  main no_float_of_str o_upsert_fails (world_of [rule_vix])
  = (Raise StoreError,
     logged [Upsert (vix_row 25) false; Log LogUpserting;
             Log (LogLatest (vix_row 25)); Log (LogFetching "VIX" "^VIX");
             Log LogBanner] (world_of [rule_vix])).
Proof.
  apply (upsert_failure_aborts_run no_float_of_str o_upsert_fails
           "VIX" "^VIX" [("NIKKEI_VI", "^NKVI.OS")] (vix_row 25)
           (world_of [rule_vix])); reflexivity.
Defined.

(** C6 on the sample rule with direction [<=]. *)
Lemma unsupported_direction_is_skipped_witness :
  eval_rule no_float_of_str o_fine (close_at 25) rule_le (world_of [rule_le])
  = (Ok tt, logged [Log (LogUnsupported (VInt 1) (VStr "<="))]
              (world_of [rule_le])).
Proof.
  assert (H1 : rows_of (VInt 1) (alert_rules (world_of [rule_le])) = [rule_le])
    by reflexivity.
  assert (H2 : forall d, rule_le !! "direction" = Some d -> d <> VStr ">=").
  { intros d Hd.
    assert (E : rule_le !! "direction" = Some (VStr "<="))
      by (vm_compute; reflexivity).
    rewrite E in Hd. injection Hd as <-. discriminate. }
  destruct (unsupported_direction_is_skipped no_float_of_str o_fine
              (close_at 25) _ _ _ H1 H2) as [Hstep _].
  apply (Hstep vars_le (flt 25)); vm_compute; reflexivity.
Defined.

(** C7 on the example of the specification: [last_result] absent, price
    30, threshold 20. *)
Lemma first_evaluation_notifies_witness :
  rule_vix !! "last_result" = None /\
  float_ge (flt 30) (flt 20) = true /\
  exists evs,
    trace (eval_rule no_float_of_str o_fine (close_at 30) rule_vix
             (world_of [rule_vix])).2 = evs ++ [] /\
    sends evs = [VInt 1].
Proof.
  assert (H1 : read_rule no_float_of_str rule_vix = Ok vars_vix)
    by (vm_compute; reflexivity).
  assert (H2 : price_of (close_at 30) (symbol vars_vix) = Some (flt 30))
    by (vm_compute; reflexivity).
  assert (H3 : rule_vix !! "last_result" = None) by (vm_compute; reflexivity).
  assert (H4 : float_ge (flt 30) (flt 20) = true) by (vm_compute; reflexivity).
  split; [exact H3|]. split; [exact H4|].
  destruct (first_evaluation_notifies no_float_of_str o_fine (close_at 30)
              rule_vix vars_vix (flt 30) "notice" (world_of [rule_vix])
              H1 H2 eq_refl eq_refl (or_introl H3)) as [_ Hn].
  destruct (Hn H4) as (evs & Ht & _ & Hs). exists evs. auto.
Defined.





(** C10 on the sample rule without its [email] key. *)
Lemma missing_key_aborts_pass_witness :
  evaluate_alerts no_float_of_str o_fine (close_at 25)
    (world_of [rule_no_email; rule_vix])
  = (Raise (KeyError "email"),
     logged [Log (LogLoaded 2)] (world_of [rule_no_email; rule_vix])).
Proof.
  assert (H1 : "email" ∈ required_keys) by (unfold required_keys; repeat first [left | right]).
  assert (H2 : rule_no_email !! "email" = None) by (vm_compute; reflexivity).
  assert (H3 : forall tv, rule_no_email !! "threshold" = Some tv ->
                 exists f, py_float no_float_of_str tv = Ok f).
  { intros tv Ht.
    assert (E : rule_no_email !! "threshold" = Some (VInt 20))
      by (vm_compute; reflexivity).
    rewrite E in Ht. injection Ht as <-. exists (flt 20). vm_compute. reflexivity. }
  destruct (missing_key_aborts_pass no_float_of_str o_fine (close_at 25)
              rule_no_email "email" H1 H2 H3) as (k' & Hk' & Hn & _ & _ & Hpass).
  assert (k' = "email") as ->.
  { unfold required_keys in Hk'.
    repeat (apply elem_of_cons in Hk'; destruct Hk' as [->|Hk'];
            [first [reflexivity | vm_compute in Hn; discriminate]|]).
    inversion Hk'. }
  apply (Hpass [rule_vix]); reflexivity.
Defined.

(** * Further properties of the code *)

(** ** Floats *)

Lemma float_ge_nan_l y : float_ge S754_nan y = false.
Proof. reflexivity. Qed.

Lemma float_ge_nan_r x : float_ge x S754_nan = false.
Proof. destruct x; reflexivity. Qed.

Lemma float_ne_nan x : float_ne x x = true <-> x = S754_nan.
Proof.
  unfold float_ne, SFeqb. destruct x as [s|s| |s m e]; cbn.
  - split; discriminate.
  - destruct s; split; discriminate.
  - split; reflexivity.
  - rewrite Z.compare_refl, Pos.compare_cont_refl. destruct s; split; discriminate.
Qed.

Section MoreSteps.

Variable fos : string -> option float.
Variable o : oracle.

(** The loop body when no mail is due. *)
Lemma check_rule_quiet lc v w price :
  price_of lc (symbol v) = Some price ->
  direction v = VStr ">=" ->
  float_ge price (threshold v) && negb (prev_result_of (last_result v)) = false ->
  check_rule o lc v w
  = update_rule o (rule_id v)
      {[ "last_result" := VBool (float_ge price (threshold v)) ]}
      (logged [Log (LogEval (rule_id v) (symbol v) (direction v) (threshold v)
                            price (prev_result_of (last_result v))
                            (float_ge price (threshold v)))] w).
Proof.
  intros Hprice Hdir Hfire. unfold check_rule. rewrite Hprice.
  destruct (decide (direction v = VStr ">=")) as [_|N]; [|contradiction].
  rewrite Hfire. reflexivity.
Qed.

(** X1. A close or a threshold that is NaN never meets the condition: the
    rule is evaluated to false, no mail is attempted and [last_result] is
    written as false, whatever the stored state, the severity and the mail
    settings are. *)
Theorem nan_never_triggers lc rule v price w :
  read_rule fos rule = Ok v ->
  price_of lc (symbol v) = Some price ->
  direction v = VStr ">=" ->
  price = S754_nan \/ threshold v = S754_nan ->
  exists w' evs,
    eval_rule fos o lc rule w = (Ok tt, w') /\
    trace w' = evs ++ trace w /\
    sends evs = [] /\ sessions evs = [] /\
    updates evs
    = [(rule_id v, {[ "last_result" := VBool false ]},
        update_ok o (rule_id v) {[ "last_result" := VBool false ]})].
Proof.
  intros Hread Hprice Hdir Hnan.
  assert (Hcur : float_ge price (threshold v) = false).
  { destruct Hnan as [-> | ->]; [apply float_ge_nan_l|apply float_ge_nan_r]. }
  unfold eval_rule, bind, lift. rewrite Hread.
  rewrite (check_rule_quiet lc v w price Hprice Hdir) by (rewrite Hcur; reflexivity).
  rewrite Hcur.
  match goal with
  | |- context [update_rule o ?i ?f ?x] =>
      destruct (update_rule_run o i f x)
        as (w2 & H2 & (evs2 & Ht2 & Hu2 & Hs2 & Hss2 & _) & _)
  end.
  exists w2. eexists (evs2 ++ [_]).
  split; [exact H2|]. rewrite Ht2, <- app_assoc, sends_app, sessions_app, updates_app,
    Hu2, Hs2, Hss2.
  repeat split.
Qed.

(** X2. On a rising edge a severity that is set to something other than a
    string makes [severity.upper()] raise: the body stops with
    [AttributeError] after its evaluation line, before any mail and before
    the update, and the loop ends there. *)
Theorem non_string_severity_aborts lc rule v price sv rest w :
  read_rule fos rule = Ok v ->
  price_of lc (symbol v) = Some price ->
  direction v = VStr ">=" ->
  rule !! "severity" = Some sv ->
  truthy sv = true ->
  (forall s, sv <> VStr s) ->
  float_ge price (threshold v) && negb (prev_result_of (last_result v)) = true ->
  let w' := logged [Log (LogEval (rule_id v) (symbol v) (direction v)
                           (threshold v) price false true)] w in
  eval_rule fos o lc rule w = (Raise AttributeError, w') /\
  eval_rules fos o lc (rule :: rest) w = (Raise AttributeError, w').
Proof.
  intros Hread Hprice Hdir Hsev Htr Hns Hfire w'.
  assert (Hs : severity v = sv).
  { destruct (read_rule_fields fos rule v Hread) as (_ & _ & _ & _ & _ & -> & _).
    unfold get, py_or. rewrite Hsev. cbn. rewrite Htr. reflexivity. }
  assert (Hup : upper (severity v) = Raise AttributeError).
  { rewrite Hs. destruct sv; try reflexivity. destruct (Hns s eq_refl). }
  assert (Hcp : float_ge price (threshold v) = true /\
                prev_result_of (last_result v) = false).
  { apply andb_true_iff in Hfire. destruct Hfire as [H1 H2].
    split; [exact H1|]. apply negb_true_iff in H2. exact H2. }
  destruct Hcp as [Hc Hp].
  assert (Hstep : eval_rule fos o lc rule w = (Raise AttributeError, w')).
  { unfold eval_rule, bind, lift. rewrite Hread. unfold check_rule.
    rewrite Hprice.
    destruct (decide (direction v = VStr ">=")) as [_|N]; [|contradiction].
    rewrite Hc, Hp. cbn [andb negb]. unfold bind, print, emit, lift.
    rewrite Hup. reflexivity. }
  split; [exact Hstep|]. cbn [eval_rules]. unfold bind. rewrite Hstep. reflexivity.
Qed.

(** On a rising edge with settings that make the notifier raise, the
    exception leaves the loop body and the loop, after the [Send] and
    before any update. *)
Lemma notifier_raises_on_edge lc rule v price s rest w :
  read_rule fos rule = Ok v ->
  price_of lc (symbol v) = Some price ->
  direction v = VStr ">=" ->
  severity v = VStr s ->
  notifier_returns o = false ->
  float_ge price (threshold v) && negb (prev_result_of (last_result v)) = true ->
  let e := match py_int (smtp_port_text o) with
           | Ok _ => UnicodeEncodeError
           | Raise _ => ValueError
           end in
  exists w' evs,
    eval_rule fos o lc rule w = (Raise e, w') /\
    eval_rules fos o lc (rule :: rest) w = (Raise e, w') /\
    trace w' = evs ++ trace w /\
    sends evs = [rule_id v] /\ sessions evs = [] /\ updates evs = [] /\
    alert_rules w' = alert_rules w.
Proof.
  intros Hread Hprice Hdir Hsev Hn Hfire e.
  assert (Hstep : exists w' evs,
    eval_rule fos o lc rule w = (Raise e, w') /\
    trace w' = evs ++ trace w /\
    sends evs = [rule_id v] /\ sessions evs = [] /\ updates evs = [] /\
    alert_rules w' = alert_rules w).
  { unfold eval_rule, bind, lift. rewrite Hread. unfold check_rule.
    rewrite Hprice.
    destruct (decide (direction v = VStr ">=")) as [_|N]; [|contradiction].
    rewrite Hfire, Hsev.
    unfold upper, bind, print, emit, lift, now.
    cbn beta iota. rewrite (send_alert_email_raises o _ _ _ _ Hn).
    eexists. eexists [_; _].
    split; [reflexivity|]. repeat split. }
  destruct Hstep as (w' & evs & H & Ht & Hs & Hss & Hu & Ha).
  exists w', evs. split; [exact H|]. split; [|auto].
  cbn [eval_rules]. unfold bind. rewrite H. reflexivity.
Qed.

(** X3. With an [SMTP_PORT] that is not an integer, a rising edge calls
    [send_alert_email], which raises [ValueError]: the exception leaves the
    loop, the rule's state is not written, and the rules that follow are
    not evaluated. *)
Theorem bad_port_aborts_on_edge lc rule v price s rest w :
  read_rule fos rule = Ok v ->
  price_of lc (symbol v) = Some price ->
  direction v = VStr ">=" ->
  severity v = VStr s ->
  py_int (smtp_port_text o) = Raise ValueError ->
  float_ge price (threshold v) && negb (prev_result_of (last_result v)) = true ->
  exists w' evs,
    eval_rule fos o lc rule w = (Raise ValueError, w') /\
    eval_rules fos o lc (rule :: rest) w = (Raise ValueError, w') /\
    trace w' = evs ++ trace w /\
    sends evs = [rule_id v] /\ sessions evs = [] /\ updates evs = [] /\
    alert_rules w' = alert_rules w.
Proof.
  intros Hread Hprice Hdir Hsev Hport Hfire.
  assert (Hn : notifier_returns o = false)
    by (unfold notifier_returns; rewrite Hport; reflexivity).
  pose proof (notifier_raises_on_edge lc rule v price s rest w
                Hread Hprice Hdir Hsev Hn Hfire) as H.
  cbv zeta in H. rewrite Hport in H. exact H.
Qed.

(** X19. With a usable port, the mail configured and a sender address that
    is not ASCII, a rising edge calls [send_alert_email], which raises
    [UnicodeEncodeError] when it builds the [From] header: no SMTP session
    is opened, the exception leaves the loop, the rule's state is not
    written, and the rules that follow are not evaluated. *)
Theorem non_ascii_sender_aborts_on_edge lc rule v price s rest w p :
  read_rule fos rule = Ok v ->
  price_of lc (symbol v) = Some price ->
  direction v = VStr ">=" ->
  severity v = VStr s ->
  py_int (smtp_port_text o) = Ok p ->
  mail_configured o = true ->
  is_ascii (default "" (sender_of o)) = false ->
  float_ge price (threshold v) && negb (prev_result_of (last_result v)) = true ->
  exists w' evs,
    eval_rule fos o lc rule w = (Raise UnicodeEncodeError, w') /\
    eval_rules fos o lc (rule :: rest) w = (Raise UnicodeEncodeError, w') /\
    trace w' = evs ++ trace w /\
    sends evs = [rule_id v] /\ sessions evs = [] /\ updates evs = [] /\
    alert_rules w' = alert_rules w.
Proof.
  intros Hread Hprice Hdir Hsev Hport Hconf Hasc Hfire.
  assert (Hn : notifier_returns o = false)
    by (unfold notifier_returns; rewrite Hport, Hconf, Hasc; reflexivity).
  pose proof (notifier_raises_on_edge lc rule v price s rest w
                Hread Hprice Hdir Hsev Hn Hfire) as H.
  cbv zeta in H. rewrite Hport in H. exact H.
Qed.

End MoreSteps.

Lemma env_falsy_set u : u <> "" -> env_falsy (Some u) = false.
Proof. intros H. cbn. apply String.eqb_neq. exact H. Qed.

Lemma env_falsy_false s :
  env_falsy s = false -> exists u, s = Some u /\ u <> "".
Proof.
  destruct s as [u|]; cbn; [|discriminate].
  intros H. exists u. split; [reflexivity|]. apply String.eqb_neq. exact H.
Qed.

Lemma replay_keeps us tbl :
  Forall2 keeps_columns tbl (replay us tbl).
Proof.
  induction us as [|[[j f] ok] us IH]; cbn [replay].
  - induction tbl; constructor; auto. intros k H. exact H.
  - destruct ok; [|exact IH].
    apply (Forall2_trans keeps_columns keeps_columns keeps_columns
             tbl (replay us tbl)); [|exact IH|].
    { intros a b c H1 H2 k Hk. apply H2, H1, Hk. }
    unfold apply_update. clear IH. induction (replay us tbl) as [|r l IHl]; cbn; constructor; auto.
    intros k Hk. destruct (decide _); [|exact Hk].
    apply lookup_union_is_Some. right. exact Hk.
Qed.

Lemma Forall2_both {A B} (P Q : A -> B -> Prop) l k :
  Forall2 P l k -> Forall2 Q l k -> Forall2 (fun a b => P a b /\ Q a b) l k.
Proof.
  intros HP. induction HP as [|a b l k Hab HP IH]; intros HQ;
    inversion HQ; subst; constructor; auto.
Qed.

Lemma rising_edges_steady c n :
  rising_edges c (repeat (Some c) n) = repeat 0%nat n.
Proof.
  induction n as [|n IH]; [reflexivity|]. cbn [repeat rising_edges].
  rewrite IH. destruct c; reflexivity.
Qed.

Lemma rising_edges_unobserved prev n :
  rising_edges prev (repeat None n) = repeat 0%nat n.
Proof.
  induction n as [|n IH]; [reflexivity|]. cbn [repeat rising_edges].
  rewrite IH. reflexivity.
Qed.

Section MorePasses.

Variable fos : string -> option float.
Variable o : oracle.

(** X4. With a usable port and both credentials set, the sender of the
    mail is [FROM_EMAIL], or [SMTP_USER] when [FROM_EMAIL] is unset or
    empty. When this address is ASCII, [send_alert_email] opens exactly one
    SMTP session, logging in with these credentials, for a message with the
    given recipient, subject and body; it returns the outcome of that
    session, and its failure is only logged. When the address is not ASCII,
    it raises [UnicodeEncodeError] and does nothing else. *)
Theorem configured_mail_is_sent to subject body w p u pw :
  py_int (smtp_port_text o) = Ok p ->
  environ o !! "SMTP_USER" = Some u -> u <> "" ->
  environ o !! "SMTP_PASS" = Some pw -> pw <> "" ->
  let sender :=
    if env_falsy (environ o !! "FROM_EMAIL") then u
    else default "" (environ o !! "FROM_EMAIL") in
  let msg :=
    {| mail_host := default "smtp.gmail.com" (environ o !! "SMTP_HOST");
       mail_port := p; mail_user := u; mail_password := pw;
       mail_from := sender; mail_to := to;
       mail_subject := subject; mail_body := body |} in
  send_alert_email o to subject body w
  = (if is_ascii sender then
       (Ok (smtp_ok o msg),
        logged [Log (if smtp_ok o msg then LogMailSent to else LogMailError);
                Smtp msg (smtp_ok o msg)] w)
     else (Raise UnicodeEncodeError, w)).
Proof.
  intros Hp Hu Hune Hpw Hpwne sender msg.
  unfold send_alert_email, bind, lift. unfold smtp_port_text in Hp.
  rewrite Hp, Hu, Hpw. rewrite (env_falsy_set u Hune), (env_falsy_set pw Hpwne).
  cbn [orb].
  assert (Hfrom : (if env_falsy (environ o !! "FROM_EMAIL") then Some u
                   else environ o !! "FROM_EMAIL") = Some sender).
  { unfold sender. destruct (env_falsy (environ o !! "FROM_EMAIL")) eqn:E;
      [reflexivity|].
    destruct (env_falsy_false _ E) as (f & -> & _). reflexivity. }
  assert (Hsne : sender <> "").
  { unfold sender. destruct (env_falsy (environ o !! "FROM_EMAIL")) eqn:E;
      [exact Hune|].
    destruct (env_falsy_false _ E) as (f & -> & Hf). exact Hf. }
  rewrite Hfrom, (env_falsy_set sender Hsne).
  change (default "" (Some sender)) with sender.
  change (default "" (Some u)) with u. change (default "" (Some pw)) with pw.
  unfold formataddr. destruct (is_ascii sender); [|reflexivity].
  match goal with |- context [smtp_ok o ?m] => change m with msg end.
  destruct (smtp_ok o msg); reflexivity.
Qed.

(** X5. Whatever its arguments and the settings, [send_alert_email]
    raises nothing but the [ValueError] of a port text that is not an
    integer and the [UnicodeEncodeError] of a configured sender address that
    is not ASCII, and then it has done nothing; it changes neither table nor
    reads the clock, opens at most one SMTP session, and returns true
    exactly when a session completed. *)
Theorem mail_helper_is_contained to subject body w :
  exists evs,
    trace (send_alert_email o to subject body w).2 = evs ++ trace w /\
    alert_rules (send_alert_email o to subject body w).2 = alert_rules w /\
    volatility_prices (send_alert_email o to subject body w).2
    = volatility_prices w /\
    clock (send_alert_email o to subject body w).2 = clock w /\
    sends evs = [] /\ updates evs = [] /\ upserts evs = [] /\
    (length (sessions evs) <= 1)%nat /\
    ((send_alert_email o to subject body w).1 = Raise ValueError /\ evs = [] /\
     py_int (smtp_port_text o) = Raise ValueError
     \/
     (send_alert_email o to subject body w).1 = Raise UnicodeEncodeError /\
     evs = [] /\ mail_configured o = true /\
     is_ascii (default "" (sender_of o)) = false
     \/
     exists sent,
       (send_alert_email o to subject body w).1 = Ok sent /\
       notifier_returns o = true /\
       (sent = true <-> exists m, sessions evs = [(m, true)])).
Proof.
  unfold notifier_returns, mail_configured, sender_of, smtp_port_text.
  unfold send_alert_email, bind, lift.
  destruct (py_int _) as [p|e] eqn:Hp.
  - destruct (env_falsy _ || env_falsy _ || env_falsy _).
    + exists [Log LogSmtpWarn]. cbn. repeat split; auto.
      right. right. exists false. split; [reflexivity|]. split; [reflexivity|].
      split; [discriminate|]. intros [m H]. discriminate.
    + unfold formataddr. destruct (is_ascii _) eqn:Ha.
      * match goal with |- context [smtp_ok o ?m] =>
          set (msg := m); destruct (smtp_ok o msg) end.
        -- exists [Log (LogMailSent to); Smtp msg true]. cbn. repeat split; auto.
           right. right. exists true. split; [reflexivity|].
           split; [reflexivity|]. split; [|reflexivity].
           intros _. exists msg. reflexivity.
        -- exists [Log LogMailError; Smtp msg false]. cbn. repeat split; auto.
           right. right. exists false. split; [reflexivity|].
           split; [reflexivity|].
           split; [discriminate|]. intros [m H]. discriminate.
      * exists []. cbn. repeat split; auto. right. left. repeat split.
  - exists []. cbn. apply py_int_raises in Hp. subst e.
    repeat split; auto.
Qed.

(** X6. [send_alert_email] never opens an SMTP session unless [SMTP_USER]
    and [SMTP_PASS] are both set and not empty, and a session it opens logs
    in with exactly these and carries the recipient, subject and body it
    was given. *)
Theorem no_session_without_credentials to subject body w m ok :
  (m, ok) ∈ sessions (since w (send_alert_email o to subject body w).2) ->
  environ o !! "SMTP_USER" = Some (mail_user m) /\ mail_user m <> "" /\
  environ o !! "SMTP_PASS" = Some (mail_password m) /\ mail_password m <> "" /\
  mail_from m <> "" /\
  mail_to m = to /\ mail_subject m = subject /\ mail_body m = body.
Proof.
  unfold send_alert_email, bind, lift.
  destruct (py_int _) as [p|e];
    [|rewrite (since_ext w _ []) by reflexivity; intros H; inversion H].
  set (user := environ o !! "SMTP_USER").
  set (password := environ o !! "SMTP_PASS").
  set (from_email := if env_falsy (environ o !! "FROM_EMAIL") then user
                     else environ o !! "FROM_EMAIL").
  destruct (env_falsy user || env_falsy password || env_falsy from_email) eqn:E.
  { rewrite (since_ext w _ [Log LogSmtpWarn]) by reflexivity.
    intros H. inversion H. }
  apply orb_false_iff in E. destruct E as [E Ef].
  apply orb_false_iff in E. destruct E as [Eu Ep].
  destruct (env_falsy_false _ Eu) as (u & Hu & Hune).
  destruct (env_falsy_false _ Ep) as (pw & Hpw & Hpwne).
  destruct (env_falsy_false _ Ef) as (f & Hf & Hfne).
  rewrite Hu, Hpw, Hf. unfold formataddr.
  destruct (is_ascii _);
    [|rewrite (since_ext w _ []) by reflexivity; intros H; inversion H].
  match goal with |- context [smtp_ok o ?x] =>
    set (msg := x); destruct (smtp_ok o msg) end.
  - rewrite (since_ext w _ [Log (LogMailSent to); Smtp msg true]) by reflexivity.
    cbn [sessions]. intros H. apply list_elem_of_singleton in H.
    injection H as -> ->. subst msg. cbn. auto 10.
  - rewrite (since_ext w _ [Log LogMailError; Smtp msg false]) by reflexivity.
    cbn [sessions]. intros H. apply list_elem_of_singleton in H.
    injection H as -> ->. subst msg. cbn. auto 10.
Qed.

(** X7. A rule that is not enabled is ignored by the evaluation pass,
    whatever the prices are: no notification and no update call for it, and
    its row is left as it was. *)
Theorem disabled_rule_is_ignored lc w rule i :
  rows_of i (alert_rules w) = [rule] ->
  rule !! "enabled" <> Some (VBool true) ->
  exists evs,
    trace (evaluate_alerts fos o lc w).2 = evs ++ trace w /\
    count_sends i evs = 0%nat /\
    (forall f ok, (i, f, ok) ∉ updates evs) /\
    rows_of i (alert_rules (evaluate_alerts fos o lc w).2) = [rule].
Proof.
  intros Hrows Hdis.
  destruct (framed_evaluate_alerts fos o lc w) as (evs & Ht & _ & Ha & Hev).
  set (P := fun j => exists r, r ∈ alert_rules w /\
             r !! "enabled" = Some (VBool true) /\ evaluated fos lc r j) in Hev.
  assert (HP : ~ P i).
  { intros (r & Hr & Hen & He). apply Hdis.
    assert (r ∈ rows_of i (alert_rules w)) as Hin.
    { apply list_elem_of_filter. split; [|exact Hr].
      destruct He as (v & price & Hread & Hid & _).
      apply (read_rule_fields fos) in Hread. destruct Hread as [Hi _]. congruence. }
    rewrite Hrows in Hin. apply list_elem_of_singleton in Hin. subst r. exact Hen. }
  exists evs. split; [exact Ht|].
  split; [apply (about_count_sends P); assumption|].
  split.
  - intros f ok Hin. apply about_updates in Hev.
    rewrite Forall_forall in Hev. apply Hev in Hin. cbn in Hin.
    destruct Hin as [Hin _]. exact (HP Hin).
  - rewrite Ha, (about_rows P evs i); assumption.
Qed.

(** X8. Whatever the table, the prices and the outcome of the calls -
    even when the pass raises - an evaluation pass leaves the price table
    alone, keeps the rows of the rule table in number and order, changes no
    column of a row other than [last_result] and [last_triggered_at], and
    removes no column from a row. *)
Theorem pass_writes_only_state_columns lc w :
  volatility_prices (evaluate_alerts fos o lc w).2 = volatility_prices w /\
  Forall2 (fun a b => static_eq a b /\ keeps_columns a b)
          (alert_rules w) (alert_rules (evaluate_alerts fos o lc w).2) /\
  upserts (since w (evaluate_alerts fos o lc w).2) = [].
Proof.
  destruct (framed_evaluate_alerts fos o lc w) as (evs & Ht & Hv & Ha & Hev).
  split; [exact Hv|]. split.
  - rewrite Ha. apply Forall2_both.
    + exact (about_static _ evs (alert_rules w) Hev).
    + apply replay_keeps.
  - rewrite (since_ext _ _ _ Ht). clear - Hev.
    induction Hev as [|e evs He _ IH]; [reflexivity|].
    destruct e; cbn in *; auto. contradiction.
Qed.

(** X9. Re-running the evaluation on the same prices is silent: over runs
    in which the store keeps up, whatever the first run did for a rule,
    every further run on the same latest closes attempts no notification
    for it. *)
Theorem reevaluation_is_silent i o1 os lc w rule v :
  rows_of i (alert_rules w) = [rule] ->
  rule !! "enabled" = Some (VBool true) ->
  read_rule fos rule = Ok v ->
  Forall (fun r => well_formed fos r = true) (enabled_rules (alert_rules w)) ->
  Forall (fun o' => store_keeps_up i (o', lc)) (o1 :: os) ->
  exists n,
    notifications fos i ((o1, lc) :: map (fun o' => (o', lc)) os) w
    = n :: repeat 0%nat (length os).
Proof.
  intros Hrows Hen Hread Hwf Hps.
  rewrite (notifications_follow_edges fos i _ w rule v Hrows Hen Hread Hwf).
  - cbn [map snd]. rewrite map_map. cbn [snd].
    replace (map (fun _ : oracle => condition lc v) os)
      with (repeat (condition lc v) (length os))
      by (clear; induction os; cbn; congruence).
    destruct (condition lc v) as [c|]; cbn [rising_edges].
    + eexists. rewrite rising_edges_steady. reflexivity.
    + eexists. rewrite rising_edges_unobserved. reflexivity.
  - change ((o1, lc) :: map (fun o' => (o', lc)) os)
      with (map (fun o' => (o', lc)) (o1 :: os)).
    apply Forall_fmap. exact Hps.
Qed.

(** X10. After a pass over well-formed rules, with a notifier that
    returns, in which a rule was evaluated and its update went through, the stored [last_result] of the rule is
    the condition's outcome in this pass, and its other columns, apart from
    [last_triggered_at], are as before. *)
Theorem stored_result_is_current lc w rule v i cur :
  rows_of i (alert_rules w) = [rule] ->
  rule !! "enabled" = Some (VBool true) ->
  read_rule fos rule = Ok v ->
  Forall (fun r => well_formed fos r = true) (enabled_rules (alert_rules w)) ->
  select_ok o = true ->
  notifier_returns o = true ->
  (forall f, update_ok o i f = true) ->
  condition lc v = Some cur ->
  exists w' rule',
    evaluate_alerts fos o lc w = (Ok tt, w') /\
    rows_of i (alert_rules w') = [rule'] /\
    rule' !! "last_result" = Some (VBool cur) /\
    static_eq rule rule'.
Proof.
  intros Hrows Hen Hread Hwf Hsel Hp Hup Hcond.
  destruct (evaluate_alerts_on_rule fos o lc rule v i w Hrows Hen Hread Hwf Hsel Hp)
    as (w' & evs & H & _ & _ & _ & Hc).
  rewrite Hcond in Hc. destruct Hc as [_ (st & Hr & _)]. rewrite Hup in Hr.
  exists w', (fields_written cur st ∪ rule).
  split; [exact H|]. split; [exact Hr|]. split.
  - apply lookup_union_Some_l. apply fields_written_result.
  - apply union_static, fields_written_shape.
Qed.

End MorePasses.

Section Repeats.

Variable fos : string -> option float.

(** X20. A notifier that raises never lets the edge be recorded: when the
    first enabled rule is on a rising edge and, in every run, the rule load
    succeeds and the mail settings make [send_alert_email] raise, each run
    on the same latest closes calls the notifier for the rule again, and
    the rule table stays as it was. *)
Theorem raising_notifier_renotifies os lc rule rest v s : forall w,
  enabled_rules (alert_rules w) = rule :: rest ->
  read_rule fos rule = Ok v ->
  severity v = VStr s ->
  condition lc v = Some true ->
  prev_result_of (last_result v) = false ->
  Forall (fun o => select_ok o = true /\ notifier_returns o = false) os ->
  notifications fos (rule_id v) (map (fun o => (o, lc)) os) w
  = repeat 1%nat (length os) /\
  alert_rules
    (foldl (fun w o => (evaluate_alerts fos o lc w).2) w os)
  = alert_rules w.
Proof.
  intros w Hen Hread Hsev Hcond Hprev Hos. revert w Hen.
  unfold condition in Hcond.
  destruct (price_of lc (symbol v)) as [price|] eqn:Hprice; [|discriminate].
  destruct (decide (direction v = VStr ">=")) as [Hdir|]; [|discriminate].
  injection Hcond as Hcur.
  assert (Hfire : float_ge price (threshold v)
                  && negb (prev_result_of (last_result v)) = true)
    by (rewrite Hcur, Hprev; reflexivity).
  induction Hos as [|o os [Hsel Hn] _ IH]; intros w Hen; [split; reflexivity|].
  set (w0 := logged [Log (LogLoaded (length (rule :: rest)))] w).
  destruct (notifier_raises_on_edge fos o lc rule v price s rest w0
              Hread Hprice Hdir Hsev Hn Hfire)
    as (w' & evs & _ & H & Ht & Hs & _ & _ & Ha).
  assert (Hrun : (evaluate_alerts fos o lc w).2 = w').
  { unfold evaluate_alerts, bind, load_enabled_alert_rules. rewrite Hsel, Hen.
    cbn [print emit ret bind]. unfold bind, print, emit, ret.
    change {| alert_rules := alert_rules w;
              volatility_prices := volatility_prices w;
              trace := Log (LogLoaded (length (rule :: rest))) :: trace w;
              clock := clock w |} with w0.
    rewrite H. reflexivity. }
  assert (Ha' : alert_rules w' = alert_rules w) by exact Ha.
  assert (Hen' : enabled_rules (alert_rules w') = rule :: rest)
    by (rewrite Ha'; exact Hen).
  destruct (IH w' Hen') as [IH1 IH2].
  cbn [map notifications foldl length repeat]. rewrite Hrun. split.
  - rewrite IH1. f_equal.
    rewrite (since_ext w w' (evs ++ [Log (LogLoaded (length (rule :: rest)))])).
    + rewrite count_sends_app, count_sends_print, Nat.add_0_r.
      unfold count_sends. rewrite Hs. cbn.
      rewrite decide_True by reflexivity. reflexivity.
    + rewrite Ht, <- app_assoc. reflexivity.
  - rewrite IH2. exact Ha'.
Qed.

End Repeats.

(** ** Ingestion and the price table *)

Lemma same_key_spec r x : same_key r x = true <-> ohlc_key r = ohlc_key x.
Proof.
  unfold same_key, ohlc_key. rewrite andb_true_iff, !String.eqb_eq.
  split; [intros [-> ->]; reflexivity|intros [= -> ->]; auto].
Qed.

Lemma same_key_refl r : same_key r r = true.
Proof. apply same_key_spec. reflexivity. Qed.

Lemma existsb_same_key r tbl :
  existsb (same_key r) tbl = true <-> ohlc_key r ∈ map ohlc_key tbl.
Proof.
  induction tbl as [|x tbl IH]; cbn.
  - split; [discriminate|intros H; inversion H].
  - rewrite orb_true_iff, IH, elem_of_cons, same_key_spec. reflexivity.
Qed.

Lemma apply_upsert_keys r tbl :
  existsb (same_key r) tbl = true ->
  map ohlc_key (map (fun x => if same_key r x then r else x) tbl)
  = map ohlc_key tbl.
Proof.
  intros _. rewrite map_map. apply map_ext. intros x.
  destruct (same_key r x) eqn:E; [|reflexivity]. apply same_key_spec. exact E.
Qed.

Lemma apply_upsert_idempotent r tbl :
  apply_upsert r (apply_upsert r tbl) = apply_upsert r tbl.
Proof.
  unfold apply_upsert. destruct (existsb (same_key r) tbl) eqn:E.
  - assert (existsb (same_key r) (map (fun x => if same_key r x then r else x) tbl)
            = true) as ->.
    { apply existsb_same_key. rewrite apply_upsert_keys by exact E.
      apply existsb_same_key. exact E. }
    rewrite map_map. apply map_ext. intros x.
    destruct (same_key r x) eqn:Ex; [rewrite same_key_refl|rewrite Ex]; reflexivity.
  - assert (existsb (same_key r) (tbl ++ [r]) = true) as ->.
    { rewrite existsb_app. cbn. rewrite same_key_refl, orb_true_r. reflexivity. }
    rewrite map_app. cbn. rewrite same_key_refl. f_equal.
    rewrite <- (map_id tbl) at 2. apply map_ext_in. intros x Hx.
    destruct (same_key r x) eqn:Ex; [|reflexivity].
    assert (existsb (same_key r) tbl = true); [|congruence].
    apply existsb_exists. exists x. auto.
Qed.

Section MoreIngestion.

Variable fos : string -> option float.
Variable o : oracle.

(** X11. A successful upsert stores the row under its (symbol, date) key:
    afterwards the row is in the table, every row with that key is this
    row, the rows of other keys are the ones there were, and keys that were
    unique stay unique. *)
Theorem upsert_stores_the_row r w :
  upsert_ok o r = true ->
  let tbl := volatility_prices w in
  let tbl' := volatility_prices (upsert_ohlc o r w).2 in
  (upsert_ohlc o r w).1 = Ok tt /\
  r ∈ tbl' /\
  (forall x, x ∈ tbl' -> ohlc_key x = ohlc_key r -> x = r) /\
  (forall x, ohlc_key x <> ohlc_key r -> (x ∈ tbl' <-> x ∈ tbl)) /\
  (NoDup (map ohlc_key tbl) -> NoDup (map ohlc_key tbl')).
Proof.
  intros Hok tbl tbl'. subst tbl'. unfold upsert_ohlc. rewrite Hok.
  cbn [fst snd print emit volatility_prices]. split; [reflexivity|]. fold tbl.
  unfold apply_upsert. destruct (existsb (same_key r) tbl) eqn:E.
  - split.
    { apply existsb_exists in E. destruct E as (x & Hx & Ex).
      apply list_elem_of_In, in_map_iff. exists x. rewrite Ex.
      split; [reflexivity|exact Hx]. }
    split.
    { intros x Hx Hk. apply list_elem_of_In, in_map_iff in Hx.
      destruct Hx as (y & Hy & _). destruct (same_key r y) eqn:Ey; [congruence|].
      subst y. assert (same_key r x = true) by (apply same_key_spec; congruence).
      congruence. }
    split.
    { intros x Hk. rewrite !list_elem_of_In, in_map_iff. split.
      - intros (y & Hy & Hin). destruct (same_key r y) eqn:Ey.
        + subst x. destruct Hk. reflexivity.
        + subst y. exact Hin.
      - intros Hin. exists x. split; [|exact Hin].
        destruct (same_key r x) eqn:Ex; [|reflexivity].
        apply same_key_spec in Ex. destruct Hk. congruence. }
    rewrite apply_upsert_keys by exact E. auto.
  - assert (Hnot : ohlc_key r ∉ map ohlc_key tbl).
    { intros H. apply existsb_same_key in H. congruence. }
    split; [apply elem_of_app; right; left|].
    split.
    { intros x Hx Hk. apply elem_of_app in Hx. destruct Hx as [Hx|Hx].
      - destruct Hnot. rewrite <- Hk. apply list_elem_of_fmap. exists x. auto.
      - apply list_elem_of_singleton in Hx. exact Hx. }
    split.
    { intros x Hk. rewrite elem_of_app, list_elem_of_singleton. split; [|auto].
      intros [H| ->]; [exact H|]. destruct Hk. reflexivity. }
    intros Hnd. rewrite map_app. apply NoDup_app. split; [exact Hnd|].
    split; [|cbn; apply NoDup_singleton].
    intros k Hk Hk'. cbn in Hk'. apply list_elem_of_singleton in Hk'. subst k.
    exact (Hnot Hk).
Qed.

(** X12. Upserting the same row again changes nothing: the price table
    after a second successful upsert of a row is the table after the
    first. A failed upsert leaves the table as it was. *)
Theorem upsert_is_idempotent r w :
  (upsert_ok o r = true ->
   volatility_prices (upsert_ohlc o r (upsert_ohlc o r w).2).2
   = volatility_prices (upsert_ohlc o r w).2) /\
  (upsert_ok o r = false ->
   (upsert_ohlc o r w).1 = Raise StoreError /\
   volatility_prices (upsert_ohlc o r w).2 = volatility_prices w).
Proof.
  split; intros Hok; unfold upsert_ohlc; rewrite Hok; cbn.
  - apply apply_upsert_idempotent.
  - split; reflexivity.
Qed.

(** The ingestion loop, whatever happens in it. *)
Lemma ingest_provenance tickers : forall lc w lc',
  (ingest o tickers lc w).1 = Ok lc' ->
  exists evs,
    trace (ingest o tickers lc w).2 = evs ++ trace w /\
    alert_rules (ingest o tickers lc w).2 = alert_rules w /\
    sends evs = [] /\ updates evs = [] /\ sessions evs = [] /\
    forall n c, lc' !! n = Some c ->
      lc !! n = Some c \/
      exists s r, (n, s) ∈ tickers /\ fetch_latest_ohlc o n s = Some r /\
                  ohlc_close r = c /\ (r, true) ∈ upserts evs.
Proof.
  induction tickers as [|[n0 s0] rest IH]; intros lc w lc'.
  - cbn. intros [= <-]. exists []. repeat split; auto.
  - cbn [ingest]. unfold bind at 1. unfold print at 1, emit at 1. cbn beta iota.
    destruct (fetch_latest_ohlc o n0 s0) as [r|] eqn:Hf.
    + unfold upsert_ohlc, bind, print, emit. destruct (upsert_ok o r) eqn:Hu;
        [|cbn; discriminate].
      cbn beta iota delta [alert_rules volatility_prices trace clock].
      match goal with |- context [ingest o rest ?l ?x] =>
        specialize (IH l x lc'); destruct (ingest o rest l x) as [res w'] end.
      cbn [fst snd] in *. intros Hres.
      destruct (IH Hres) as (evs & Ht & Ha & Hs & Hup & Hss & Hall).
      eexists (evs ++ [_; _; _; _; _; _]).
      rewrite Ht, <- app_assoc, sends_app, updates_app, sessions_app, Hs, Hup, Hss.
      cbn [trace app alert_rules] in *. repeat split; auto.
      intros n c Hn. destruct (Hall n c Hn) as [Hl|(s & r' & Hin & Hf' & Hc & Hu')].
      * destruct (decide (n0 = n)) as [->|Hne].
        -- rewrite lookup_insert_eq in Hl. injection Hl as <-.
           right. exists s0, r. split; [left|]. split; [exact Hf|].
           split; [reflexivity|]. rewrite upserts_app. apply elem_of_app. right.
           cbn. left.
        -- rewrite lookup_insert_ne in Hl by exact Hne. left. exact Hl.
      * right. exists s, r'. split; [right; exact Hin|]. split; [exact Hf'|].
        split; [exact Hc|]. rewrite upserts_app. apply elem_of_app. left. exact Hu'.
    + unfold bind, print, emit. cbn beta iota.
      match goal with |- context [ingest o rest ?l ?x] =>
        specialize (IH l x lc'); destruct (ingest o rest l x) as [res w'] end.
      cbn [fst snd] in *. intros Hres.
      destruct (IH Hres) as (evs & Ht & Ha & Hs & Hup & Hss & Hall).
      eexists (evs ++ [_; _]).
      rewrite Ht, <- app_assoc, sends_app, updates_app, sessions_app, Hs, Hup, Hss.
      cbn [trace app alert_rules] in *. repeat split; auto.
      intros n c Hn. destruct (Hall n c Hn) as [Hl|(s & r' & Hin & Hf' & Hc & Hu')].
      * left. exact Hl.
      * right. exists s, r'. split; [right; exact Hin|]. split; [exact Hf'|].
        split; [exact Hc|]. rewrite upserts_app. apply elem_of_app. left. exact Hu'.
Qed.

(** X13. Every price that the ingestion loop hands to the evaluation is
    the close of a bar fetched in this run for a configured symbol, and its
    row was upserted before; the loop itself calls neither the notifier nor
    the rule store. *)
Theorem reported_prices_were_stored tickers w lc :
  (ingest o tickers ∅ w).1 = Ok lc ->
  exists evs,
    trace (ingest o tickers ∅ w).2 = evs ++ trace w /\
    alert_rules (ingest o tickers ∅ w).2 = alert_rules w /\
    sends evs = [] /\ updates evs = [] /\ sessions evs = [] /\
    forall n c, lc !! n = Some c ->
      exists s r, (n, s) ∈ tickers /\ fetch_latest_ohlc o n s = Some r /\
                  ohlc_close r = c /\ (r, true) ∈ upserts evs.
Proof.
  intros H. destruct (ingest_provenance tickers ∅ w lc H)
    as (evs & Ht & Ha & Hs & Hu & Hss & Hall).
  exists evs. repeat split; auto.
  intros n c Hn. destruct (Hall n c Hn) as [Hl|Hex]; [|exact Hex].
  rewrite lookup_empty in Hl. discriminate.
Qed.

Lemma framed_ingest_no_data tickers : forall lc w,
  (forall n s, (n, s) ∈ tickers -> fetch_latest_ohlc o n s = None) ->
  framed_at (fun _ => False) (ingest o tickers lc) w /\
  (ingest o tickers lc w).1 = Ok lc.
Proof.
  induction tickers as [|[n0 s0] rest IH]; intros lc w Hnone.
  - split; [apply framed_ret|reflexivity].
  - cbn [ingest]. rewrite (Hnone n0 s0) by left.
    assert (Hrest : forall n s, (n, s) ∈ rest -> fetch_latest_ohlc o n s = None)
      by (intros n s Hin; apply Hnone; right; exact Hin).
    split.
    + apply framed_bind; [apply framed_print|]. intros _ _.
      apply framed_bind; [apply framed_print|]. intros _ _.
      apply IH. exact Hrest.
    + unfold bind, print, emit. cbn beta iota. apply IH. exact Hrest.
Qed.

(** X14. When no ticker returns data, [main] upserts nothing and still
    runs the evaluation pass, on an empty map: no rule is notified or
    updated, and both tables are left as they were. *)
Theorem run_without_data_changes_nothing tickers w :
  (forall n s, (n, s) ∈ tickers -> fetch_latest_ohlc o n s = None) ->
  exists w1 evs,
    ingest o tickers ∅ (logged [Log LogBanner] w) = (Ok ∅, w1) /\
    main_with fos o tickers w
    = (print LogChecking >> evaluate_alerts fos o ∅ >> print LogAllDone)%M w1 /\
    trace (main_with fos o tickers w).2 = evs ++ trace w /\
    sends evs = [] /\ updates evs = [] /\ upserts evs = [] /\
    alert_rules (main_with fos o tickers w).2 = alert_rules w /\
    volatility_prices (main_with fos o tickers w).2 = volatility_prices w.
Proof.
  intros Hnone.
  assert (Hfr : framed_at (fun _ => False) (main_with fos o tickers) w).
  { unfold main_with. apply framed_bind; [apply framed_print|]. intros _ _.
    apply framed_bind; [apply framed_ingest_no_data; exact Hnone|].
    intros lc Hlc.
    rewrite (proj2 (framed_ingest_no_data tickers ∅ _ Hnone)) in Hlc.
    injection Hlc as <-.
    apply framed_bind; [apply framed_print|]. intros _ _.
    apply framed_bind; [|intros; apply framed_print].
    eapply framed_weaken; [|apply framed_evaluate_alerts].
    cbn beta. intros i (r & _ & _ & v & price & _ & _ & Hp & _).
    destruct (symbol v); cbn in Hp; discriminate. }
  destruct Hfr as (evs & Ht & Hv & Ha & Hev).
  assert (Hs : sends evs = [] /\ updates evs = [] /\ upserts evs = []).
  { clear - Hev. induction Hev as [|e evs He _ IH]; [auto|].
    destruct e; cbn in *; auto; try contradiction; destruct He as [[] _]. }
  destruct Hs as (Hs & Hu & Hup).
  pose proof (framed_ingest_no_data tickers ∅ (logged [Log LogBanner] w) Hnone)
    as [_ Hok].
  destruct (ingest o tickers ∅ (logged [Log LogBanner] w)) as [res w1] eqn:Hi.
  cbn in Hok. subst res.
  exists w1, evs. split; [reflexivity|]. split.
  { unfold main_with. unfold bind at 1. unfold print at 1, emit at 1.
    cbn beta iota. unfold bind at 1.
    change {| alert_rules := alert_rules w;
              volatility_prices := volatility_prices w;
              trace := Log LogBanner :: trace w; clock := clock w |}
      with (logged [Log LogBanner] w).
    rewrite Hi. reflexivity. }
  split; [exact Ht|]. rewrite Ha, Hu. auto.
Qed.

End MoreIngestion.

(** ** The history imports *)

Lemma slice_step {A} (l : list A) j s : slice l j (j + s) = take s (drop j l).
Proof. unfold slice. f_equal. lia. Qed.

Lemma range_from_lt fuel : forall i stop step x,
  x ∈ range_from fuel i stop step -> (i <= x < stop)%nat.
Proof.
  induction fuel as [|fuel IH]; intros i stop step x; cbn [range_from].
  - intros H. inversion H.
  - destruct (Nat.ltb_spec i stop) as [Hlt|Hge]; [|intros H; inversion H].
    intros [->|H]%elem_of_cons; [lia|]. apply IH in H. lia.
Qed.

Lemma range_from_concat {A} (rows : list A) s fuel : forall i,
  (0 < s)%nat -> (length rows - i <= fuel)%nat ->
  concat (map (fun j => slice rows j (j + s))
              (range_from fuel i (length rows) s))
  = drop i rows.
Proof.
  induction fuel as [|fuel IH]; intros i Hs Hfuel; cbn [range_from].
  - rewrite drop_ge by lia. reflexivity.
  - destruct (Nat.ltb_spec i (length rows)) as [Hlt|Hge].
    + cbn [map concat]. rewrite IH by lia. rewrite slice_step.
      rewrite <- drop_drop. apply take_drop.
    + rewrite drop_ge by lia. reflexivity.
Qed.

Lemma range_from_numbers s fuel : forall a stop,
  (0 < s)%nat ->
  map (fun j => (j / s + 1)%nat) (range_from fuel (a * s) stop s)
  = seq (a + 1) (length (range_from fuel (a * s) stop s)).
Proof.
  induction fuel as [|fuel IH]; intros a stop Hs; cbn [range_from]; [reflexivity|].
  destruct (a * s <? stop)%nat; [|reflexivity].
  cbn [map length seq]. rewrite Nat.div_mul by lia. f_equal.
  replace (a * s + s)%nat with (S a * s)%nat by lia.
  rewrite IH by exact Hs. f_equal; lia.
Qed.

Lemma range_from_count s fuel : forall i stop,
  (0 < s)%nat -> (stop - i <= fuel)%nat ->
  let n := length (range_from fuel i stop s) in
  (stop <= i + n * s)%nat /\ (i + n * s < Nat.max stop i + s)%nat.
Proof.
  induction fuel as [|fuel IH]; intros i stop Hs Hfuel; cbn [range_from length].
  - cbn. lia.
  - destruct (Nat.ltb_spec i stop) as [Hlt|Hge]; cbn [length]; [|lia].
    destruct (IH (i + s)%nat stop Hs ltac:(lia)) as [H1 H2]. cbn zeta in H1, H2.
    set (n := length (range_from fuel (i + s) stop s)) in *.
    replace (i + S n * s)%nat with (i + s + n * s)%nat by lia.
    split; [lia|].
    destruct (Nat.le_gt_cases (i + s) stop) as [Hle|Hgt]; [lia|].
    assert (n = 0)%nat by nia. subst n. lia.
Qed.

(** X15. The upsert loop of the three import scripts cuts the rows into
    consecutive batches: put end to end the batches are the rows, in order
    and without loss or repetition, no batch is empty nor longer than 200,
    and when there are no rows there is no batch. *)
Theorem batches_partition_rows {A} (rows : list A) :
  concat (map snd (batches rows)) = rows /\
  Forall (fun b => (1 <= length b.2 <= batch_size)%nat) (batches rows) /\
  (rows = [] -> batches rows = []).
Proof.
  unfold batches, py_range. split; [|split].
  - rewrite map_map. cbn [snd].
    rewrite (range_from_concat rows batch_size (length rows) 0%nat);
      [reflexivity|unfold batch_size; lia|lia].
  - apply Forall_forall. intros b Hb. apply list_elem_of_fmap in Hb.
    destruct Hb as (j & -> & Hj). apply range_from_lt in Hj. cbn [snd].
    rewrite slice_step, length_take, length_drop. unfold batch_size. lia.
  - intros ->. reflexivity.
Qed.

(** X16. The batches are numbered 1, 2, 3, ... in the lines printed, and
    their number is the number of rows divided by 200, rounded up. *)
Theorem batches_are_numbered {A} (rows : list A) :
  let n := length (batches rows) in
  map fst (batches rows) = seq 1 n /\
  (length rows <= n * batch_size)%nat /\
  (n * batch_size < length rows + batch_size)%nat.
Proof.
  unfold batches, py_range. rewrite length_map. cbn zeta. split.
  - rewrite map_map. cbn [fst].
    apply (range_from_numbers batch_size (length rows) 0 (length rows)).
    unfold batch_size. lia.
  - destruct (range_from_count batch_size (length rows) 0 (length rows))
      as [H1 H2]; [unfold batch_size; lia|lia|].
    cbn zeta in H1, H2. lia.
Qed.

Lemma clean_row_some r d :
  clean_row r = Some d ->
  d_symbol d = "NIKKEI_VI" /\ d_date d = h_date r /\ d_close d = h_close r /\
  h_close r <> S754_nan /\
  d_open d = (if decide (h_open r = S754_nan) then h_close r else h_open r) /\
  d_high d = (if decide (h_high r = S754_nan) then h_close r else h_high r) /\
  d_low d = (if decide (h_low r = S754_nan) then h_close r else h_low r).
Proof.
  unfold clean_row.
  destruct (float_ne (h_close r) (h_close r)) eqn:Ec; [discriminate|].
  intros [= <-]. cbn.
  assert (Hc : h_close r <> S754_nan).
  { intros H. apply float_ne_nan in H. congruence. }
  assert (Hf : forall x, (if float_ne x x then h_close r else x)
                         = (if decide (x = S754_nan) then h_close r else x)).
  { intros x. destruct (decide (x = S754_nan)) as [->|N]; [reflexivity|].
    destruct (float_ne x x) eqn:E; [|reflexivity].
    apply float_ne_nan in E. contradiction. }
  rewrite !Hf. auto 10.
Qed.


Lemma nikkei_rows_some vix_min vix_max hist rows :
  nikkei_rows vix_min vix_max hist = Some rows ->
  rows = omap clean_row (trim vix_min vix_max hist) /\ rows <> [].
Proof.
  unfold nikkei_rows. destruct hist as [|h hist]; [discriminate|].
  destruct (trim vix_min vix_max (h :: hist)) as [|t l]; [discriminate|].
  destruct (omap clean_row (t :: l)) as [|d ds]; [discriminate|].
  intros [= <-]. split; [reflexivity|discriminate].
Qed.

(** X17. The rows that [backfill_nikkei_vi_10y.py] upserts are never
    empty, all belong to NIKKEI_VI, all lie within the VIX date range, and
    none of their four prices is NaN. *)
Theorem nikkei_rows_are_clean vix_min vix_max hist rows :
  nikkei_rows vix_min vix_max hist = Some rows ->
  rows <> [] /\
  Forall (fun d =>
            d_symbol d = "NIKKEI_VI" /\
            vix_min <= d_date d <= vix_max /\
            d_open d <> S754_nan /\ d_high d <> S754_nan /\
            d_low d <> S754_nan /\ d_close d <> S754_nan) rows.
Proof.
  intros H. destruct (nikkei_rows_some _ _ _ _ H) as [-> Hne].
  split; [exact Hne|]. apply Forall_forall. intros d Hd.
  apply list_elem_of_omap in Hd. destruct Hd as (r & Hr & Hc).
  apply list_elem_of_filter in Hr. destruct Hr as [Hin _].
  apply Is_true_true, andb_true_iff in Hin. destruct Hin as [H1 H2].
  apply Z.leb_le in H1, H2.
  destruct (clean_row_some r d Hc) as (Hs & Hd & Hcl & Hnn & Ho & Hh & Hl).
  rewrite Hs, Hd, Hcl, Ho, Hh, Hl.
  repeat split; auto;
    match goal with
    | |- (if decide ?P then _ else _) <> _ => destruct (decide P); auto
    end.
Qed.


(** ** The further properties on the sample data *)

(** X1 with a close that is NaN. *)
Lemma nan_never_triggers_witness :
  exists w' evs,
    eval_rule no_float_of_str o_fine close_nan rule_vix
      (world_of [rule_vix]) = (Ok tt, w') /\
    trace w' = evs ++ [] /\ sends evs = [].
Proof.
  assert (H1 : read_rule no_float_of_str rule_vix = Ok vars_vix)
    by (vm_compute; reflexivity).
  assert (H2 : price_of close_nan (symbol vars_vix) = Some S754_nan)
    by (vm_compute; reflexivity).
  destruct (nan_never_triggers no_float_of_str o_fine close_nan
              rule_vix vars_vix S754_nan (world_of [rule_vix])
              H1 H2 eq_refl (or_introl eq_refl))
    as (w' & evs & H & Ht & Hs & _).
  exists w', evs. auto.
Defined.

(** X2 with severity 3. *)
Lemma non_string_severity_aborts_witness :
  (eval_rule no_float_of_str o_fine (close_at 25) rule_numeric_severity
     (world_of [rule_numeric_severity])).1 = Raise AttributeError.
Proof.
  assert (H1 : read_rule no_float_of_str rule_numeric_severity
               = Ok vars_numeric_severity) by (vm_compute; reflexivity).
  assert (H0 : price_of (close_at 25) (symbol vars_numeric_severity)
               = Some (flt 25)) by (vm_compute; reflexivity).
  assert (H2 : rule_numeric_severity !! "severity" = Some (VInt 3))
    by (vm_compute; reflexivity).
  assert (H3 : forall s, VInt 3 <> VStr s) by discriminate.
  assert (H4 : float_ge (flt 25) (threshold vars_numeric_severity)
               && negb (prev_result_of (last_result vars_numeric_severity))
               = true) by (vm_compute; reflexivity).
  destruct (non_string_severity_aborts no_float_of_str o_fine (close_at 25)
              rule_numeric_severity vars_numeric_severity (flt 25) (VInt 3) []
              (world_of [rule_numeric_severity]) H1 H0 eq_refl H2 eq_refl
              H3 H4) as [H _].
  rewrite H. reflexivity.
Defined.

(** X3 with [SMTP_PORT=abc] and the credentials set. *)
Lemma bad_port_aborts_on_edge_witness :
  exists w',
    eval_rules no_float_of_str o_configured_bad_port (close_at 25) [rule_vix]
      (world_of [rule_vix]) = (Raise ValueError, w') /\
    alert_rules w' = [rule_vix].
Proof.
  assert (H1 : read_rule no_float_of_str rule_vix = Ok vars_vix)
    by (vm_compute; reflexivity).
  assert (H0 : price_of (close_at 25) (symbol vars_vix) = Some (flt 25))
    by (vm_compute; reflexivity).
  assert (H2 : py_int (smtp_port_text o_configured_bad_port) = Raise ValueError)
    by (vm_compute; reflexivity).
  assert (H3 : float_ge (flt 25) (threshold vars_vix)
               && negb (prev_result_of (last_result vars_vix)) = true)
    by (vm_compute; reflexivity).
  destruct (bad_port_aborts_on_edge no_float_of_str o_configured_bad_port
              (close_at 25) rule_vix vars_vix (flt 25) "notice" []
              (world_of [rule_vix]) H1 H0 eq_refl eq_refl H2 H3)
    as (w' & evs & _ & H & _ & _ & _ & _ & Ha).
  exists w'. split; [exact H|exact Ha].
Defined.

(** X19 with the sender [アラート@example.org]. *)
Lemma non_ascii_sender_aborts_on_edge_witness :
  exists w',
    eval_rules no_float_of_str o_non_ascii_sender (close_at 25) [rule_vix]
      (world_of [rule_vix]) = (Raise UnicodeEncodeError, w') /\
    sessions (trace w') = [] /\
    alert_rules w' = [rule_vix].
Proof.
  assert (H1 : read_rule no_float_of_str rule_vix = Ok vars_vix)
    by (vm_compute; reflexivity).
  assert (H0 : price_of (close_at 25) (symbol vars_vix) = Some (flt 25))
    by (vm_compute; reflexivity).
  assert (H2 : py_int (smtp_port_text o_non_ascii_sender) = Ok 587)
    by (vm_compute; reflexivity).
  assert (H3 : mail_configured o_non_ascii_sender = true)
    by (vm_compute; reflexivity).
  assert (H4 : is_ascii (default "" (sender_of o_non_ascii_sender)) = false)
    by (vm_compute; reflexivity).
  assert (H5 : float_ge (flt 25) (threshold vars_vix)
               && negb (prev_result_of (last_result vars_vix)) = true)
    by (vm_compute; reflexivity).
  destruct (non_ascii_sender_aborts_on_edge no_float_of_str o_non_ascii_sender
              (close_at 25) rule_vix vars_vix (flt 25) "notice" []
              (world_of [rule_vix]) 587 H1 H0 eq_refl eq_refl H2 H3 H4 H5)
    as (w' & evs & _ & H & Ht & _ & Hs & _ & Ha).
  exists w'. split; [exact H|]. split; [|exact Ha].
  rewrite Ht. cbn [world_of trace]. rewrite app_nil_r. exact Hs.
Defined.

(** X20 on three runs at a close of 25, with a bad port and with a sender
    that is not ASCII. *)
Lemma raising_notifier_renotifies_witness :
  notifications no_float_of_str (VInt 1)
    [(o_configured_bad_port, close_at 25); (o_non_ascii_sender, close_at 25);
     (o_configured_bad_port, close_at 25)] (world_of [rule_vix])
  = [1; 1; 1]%nat.
Proof.
  assert (H1 : enabled_rules (alert_rules (world_of [rule_vix])) = [rule_vix])
    by reflexivity.
  assert (H2 : read_rule no_float_of_str rule_vix = Ok vars_vix)
    by (vm_compute; reflexivity).
  assert (H3 : condition (close_at 25) vars_vix = Some true)
    by (vm_compute; reflexivity).
  assert (H4 : Forall (fun o => select_ok o = true /\ notifier_returns o = false)
                 [o_configured_bad_port; o_non_ascii_sender;
                  o_configured_bad_port]).
  { repeat constructor; vm_compute; reflexivity. }
  exact (proj1 (raising_notifier_renotifies no_float_of_str _ (close_at 25)
                  rule_vix [] vars_vix "notice" (world_of [rule_vix])
                  H1 H2 eq_refl H3 eq_refl H4)).
Defined.

(** X4 with the sample settings. *)
Lemma configured_mail_is_sent_witness :
  send_alert_email o_fine (VStr "ops@example.org") [] [] (world_of [])
  = (Ok true,
     logged [Log (LogMailSent (VStr "ops@example.org")); Smtp sample_mail true]
            (world_of [])).
Proof.
  assert (H1 : py_int (smtp_port_text o_fine) = Ok 587)
    by (vm_compute; reflexivity).
  assert (H2 : environ o_fine !! "SMTP_USER" = Some "alerts@example.org")
    by (vm_compute; reflexivity).
  assert (H3 : environ o_fine !! "SMTP_PASS" = Some "secret")
    by (vm_compute; reflexivity).
  rewrite (configured_mail_is_sent o_fine (VStr "ops@example.org") [] []
             (world_of []) 587 "alerts@example.org" "secret" H1 H2
             ltac:(discriminate) H3 ltac:(discriminate)).
  vm_compute. reflexivity.
Defined.

(** X6 on the session of the sample settings. *)
Lemma no_session_without_credentials_witness :
  environ o_fine !! "SMTP_USER" = Some "alerts@example.org" /\
  environ o_fine !! "SMTP_PASS" = Some "secret".
Proof.
  assert (H : (sample_mail, true)
              ∈ sessions (since (world_of [])
                   (send_alert_email o_fine (VStr "ops@example.org") [] []
                      (world_of [])).2)).
  { vm_compute. left. }
  destruct (no_session_without_credentials o_fine (VStr "ops@example.org") [] []
              (world_of []) sample_mail true H) as (Hu & _ & Hp & _).
  split; [exact Hu|exact Hp].
Defined.

(** X7 on the sample rule, disabled, with VIX at 25. *)
Lemma disabled_rule_is_ignored_witness :
  rows_of (VInt 1)
    (alert_rules (evaluate_alerts no_float_of_str o_fine (close_at 25)
                    (world_of [rule_disabled])).2)
  = [rule_disabled].
Proof.
  assert (H1 : rows_of (VInt 1) (alert_rules (world_of [rule_disabled]))
               = [rule_disabled]) by reflexivity.
  assert (H2 : rule_disabled !! "enabled" <> Some (VBool true)).
  { assert (E : rule_disabled !! "enabled" = Some (VBool false))
      by (vm_compute; reflexivity).
    rewrite E. discriminate. }
  destruct (disabled_rule_is_ignored no_float_of_str o_fine (close_at 25)
              _ _ _ H1 H2) as (evs & _ & _ & _ & H).
  exact H.
Defined.

(** X9 on three runs at a close of 25. *)
Lemma reevaluation_is_silent_witness :
  exists n,
    notifications no_float_of_str (VInt 1)
      [(o_fine, close_at 25); (o_fine, close_at 25); (o_fine, close_at 25)]
      (world_of [rule_vix])
    = [n; 0; 0]%nat.
Proof.
  assert (H1 : rows_of (VInt 1) (alert_rules (world_of [rule_vix])) = [rule_vix])
    by reflexivity.
  assert (H2 : rule_vix !! "enabled" = Some (VBool true))
    by (vm_compute; reflexivity).
  assert (H3 : read_rule no_float_of_str rule_vix = Ok vars_vix)
    by (vm_compute; reflexivity).
  assert (H4 : Forall (fun r => well_formed no_float_of_str r = true)
                 (enabled_rules (alert_rules (world_of [rule_vix])))).
  { replace (enabled_rules (alert_rules (world_of [rule_vix]))) with [rule_vix]
      by reflexivity.
    repeat constructor. }
  assert (H5 : Forall (fun o' => store_keeps_up (VInt 1) (o', close_at 25))
                 [o_fine; o_fine; o_fine]).
  { repeat constructor; try (exists 587; vm_compute; reflexivity). }
  exact (reevaluation_is_silent no_float_of_str (VInt 1) o_fine [o_fine; o_fine]
           (close_at 25) (world_of [rule_vix]) rule_vix vars_vix H1 H2 H3 H4 H5).
Defined.

(** X10 on the sample rule with VIX at 25. *)
Lemma stored_result_is_current_witness :
  exists w' rule',
    evaluate_alerts no_float_of_str o_fine (close_at 25) (world_of [rule_vix])
    = (Ok tt, w') /\
    rows_of (VInt 1) (alert_rules w') = [rule'] /\
    rule' !! "last_result" = Some (VBool true).
Proof.
  assert (H1 : rows_of (VInt 1) (alert_rules (world_of [rule_vix])) = [rule_vix])
    by reflexivity.
  assert (H2 : rule_vix !! "enabled" = Some (VBool true))
    by (vm_compute; reflexivity).
  assert (H3 : read_rule no_float_of_str rule_vix = Ok vars_vix)
    by (vm_compute; reflexivity).
  assert (H4 : Forall (fun r => well_formed no_float_of_str r = true)
                 (enabled_rules (alert_rules (world_of [rule_vix])))).
  { replace (enabled_rules (alert_rules (world_of [rule_vix]))) with [rule_vix]
      by reflexivity.
    repeat constructor. }
  assert (H5 : notifier_returns o_fine = true)
    by (vm_compute; reflexivity).
  assert (H6 : condition (close_at 25) vars_vix = Some true)
    by (vm_compute; reflexivity).
  destruct (stored_result_is_current no_float_of_str o_fine (close_at 25)
              (world_of [rule_vix]) rule_vix vars_vix (VInt 1) true
              H1 H2 H3 H4 eq_refl H5 (fun _ => eq_refl) H6)
    as (w' & rule' & H & Hr & Hl & _).
  exists w', rule'. auto.
Defined.

(** X11 on a table that already holds the VIX row of the day with another
    close. *)
Lemma upsert_stores_the_row_witness :
  let w := {| alert_rules := []; volatility_prices := [vix_row 24];
              trace := []; clock := 0 |} in
  vix_row 25 ∈ volatility_prices (upsert_ohlc o_fine (vix_row 25) w).2 /\
  NoDup (map ohlc_key (volatility_prices (upsert_ohlc o_fine (vix_row 25) w).2)).
Proof.
  intros w.
  destruct (upsert_stores_the_row o_fine (vix_row 25) w eq_refl)
    as (_ & Hin & _ & _ & Hnd).
  split; [exact Hin|]. apply Hnd. cbn. apply NoDup_singleton.
Defined.

(** X12 on the sample row. *)
Lemma upsert_is_idempotent_witness :
  volatility_prices
    (upsert_ohlc o_fine (vix_row 25)
       (upsert_ohlc o_fine (vix_row 25) (world_of [])).2).2
  = volatility_prices (upsert_ohlc o_fine (vix_row 25) (world_of [])).2.
Proof.
  exact (proj1 (upsert_is_idempotent o_fine (vix_row 25) (world_of [])) eq_refl).
Defined.

(** X13 on the configured tickers, VIX closing at 25. *)
Lemma reported_prices_were_stored_witness :
  exists evs,
    (vix_row 25, true) ∈ upserts evs /\
    trace (ingest o_fine INDEX_TICKERS ∅ (world_of [rule_vix])).2 = evs ++ [].
Proof.
  assert (H : (ingest o_fine INDEX_TICKERS ∅ (world_of [rule_vix])).1
              = Ok (close_at 25)) by (vm_compute; reflexivity).
  destruct (reported_prices_were_stored o_fine INDEX_TICKERS
              (world_of [rule_vix]) (close_at 25) H)
    as (evs & Ht & _ & _ & _ & _ & Hall).
  exists evs. split; [|exact Ht].
  destruct (Hall "VIX" (flt 25) ltac:(vm_compute; reflexivity))
    as (s & r & Hin & Hf & Hc & Hu).
  assert (r = vix_row 25) as <-; [|exact Hu].
  unfold INDEX_TICKERS in Hin.
  apply elem_of_cons in Hin. destruct Hin as [[= ->]|Hin].
  - vm_compute in Hf. injection Hf as <-. reflexivity.
  - apply list_elem_of_singleton in Hin. discriminate.
Defined.

(** X14 when no ticker answers. *)
Lemma run_without_data_changes_nothing_witness :
  alert_rules (main no_float_of_str o_no_data (world_of [rule_vix])).2
  = [rule_vix].
Proof.
  assert (H : forall n s, (n, s) ∈ INDEX_TICKERS ->
                fetch_latest_ohlc o_no_data n s = None) by reflexivity.
  destruct (run_without_data_changes_nothing no_float_of_str o_no_data
              INDEX_TICKERS (world_of [rule_vix]) H)
    as (w1 & evs & _ & _ & _ & _ & _ & _ & Ha & _).
  exact Ha.
Defined.

(** X17 and X18 on a history of four days, the VIX range being days 10 to
    20: the second day has no open and no low, the third no close, the
    fourth is out of range. *)
Lemma nikkei_rows_are_clean_witness :
  exists rows,
    nikkei_rows 10 20 sample_hist = Some rows /\ rows <> [] /\
    Forall (fun d => d_close d <> S754_nan) rows.
Proof.
  destruct (nikkei_rows 10 20 sample_hist) as [rows|] eqn:E;
    [|vm_compute in E; discriminate].
  destruct (nikkei_rows_are_clean 10 20 sample_hist rows E) as [Hne Hall].
  exists rows. split; [reflexivity|]. split; [exact Hne|].
  eapply Forall_impl; [exact Hall|]. cbn. intros d H.
  destruct H as (_ & _ & _ & _ & _ & H). exact H.
Defined.

